(** * python-podman: the varlink transport session and the calls built on it

    A shallow embedding of [podman/client.py] (BaseClient, LocalClient,
    RemoteClient), and of the parts of [podman/libs/containers.py] and
    [podman/libs/pods.py] that poll, retry and marshal through a session.

    Python code that mutates objects and raises exceptions is written in a
    state-and-exception monad.  Everything outside the repository (the varlink
    library, the daemon, the secure-shell tunnel, the clock) is an explicit
    environment [env] whose answers may depend on the whole history of
    events; theorems quantify over every environment. *)

From Stdlib Require Import ZArith Lia Ascii String.
From stdpp Require Import gmap strings list.

Local Open Scope string_scope.

(** ** Python values and exceptions *)

(** The few Python values exchanged with the daemon or passed as keyword
    arguments. *)
Inductive pyval : Type :=
| PNone
| PBool (b : bool)
| PInt (z : Z)
| PStr (s : string)
| PList (l : list string).

#[global] Instance pyval_eq_dec : EqDecision pyval.
Proof. solve_decision. Defined.

(** Python truthiness, as used by [x or y] and [if x:]. *)
Definition truthy (v : pyval) : bool :=
  match v with
  | PNone => false
  | PBool b => b
  | PInt z => negb (z =? 0)%Z
  | PStr s => negb (String.eqb s "")
  | PList l => negb (bool_decide (l = []))
  end.

(** [x or y]. *)
Definition py_or (x y : pyval) : pyval := if truthy x then x else y.

(** Typed daemon faults, the classes exported by [podman/__init__.py]. *)
Inductive kind : Type :=
| ContainerNotFound | ImageNotFound | PodNotFound | NoContainerRunning
| NoContainersInPod | InvalidState | PodContainerError | ErrorOccurred.

(** A [varlink.VarlinkError]: the error identifier and its message. *)
Record varlink_error : Type := MkVarlinkError {
  ve_error : string;
  ve_message : string
}.

Record typed_error : Type := MkTypedError {
  te_kind : kind;
  te_message : string;
  te_original_identifier : string
}.

Inductive exn : Type :=
| VarlinkError (v : varlink_error)
| PodmanError (t : typed_error)
| BrokenPipeError
| ConnectionError (msg : string)
| TunnelError (msg : string)
| TimeoutError
| ValueError (msg : string)
| AttributeError (msg : string)
| KeyError (key : string)
| TypeError (msg : string).

(** What the outside world can raise into the library: a daemon error, a
    reset channel, a failed connection or a failed tunnel. *)
Inductive fault : Type :=
| FVarlink (v : varlink_error)
| FBrokenPipe
| FConnection (msg : string)
| FTunnel (msg : string).

Definition raise_of (f : fault) : exn :=
  match f with
  | FVarlink v => VarlinkError v
  | FBrokenPipe => BrokenPipeError
  | FConnection m => ConnectionError m
  | FTunnel m => TunnelError m
  end.

(** [isinstance(e, VarlinkError)]. *)
Definition is_VarlinkError (e : exn) : bool :=
  match e with VarlinkError _ => true | _ => false end.

(** A named result of a daemon reply: a scalar or a mapping of scalars. *)
Inductive pyobj : Type :=
| Val (v : pyval)
| Dict (d : gmap string pyval).

(** ** Events, environment and state *)

Record commit_args : Type := MkCommitArgs {
  ca_id : string;
  ca_image_name : string;
  ca_change : pyval;
  ca_author : pyval;
  ca_message : pyval;
  ca_pause : pyval
}.

(** The daemon methods used below. *)
Inductive method : Type :=
| GetContainer (id : string)
| KillContainer (id : string) (sig : Z)
| ContainerExists (id : string)
| Commit (a : commit_args)
| GetPod (id : string)
| KillPod (id : string) (sig : Z).

(** Everything observable that the library does to the outside world.
    Handles of varlink clients, channels and tunnels are numbers. *)
Inductive event : Type :=
| EvClientNew (hc : nat) (address : string)
| EvIfaceOpen (h : nat) (interface : string)
| EvOpenFailed
| EvClientClose (hc : nat)
| EvIfaceClose (h : nat)
| EvCall (h : nat) (m : method)
| EvBore (t : nat)
| EvBoreFailed
| EvTunnelClose (t : nat)
| EvSleep (ms : Z).

(** Floating-point numbers are not computed with.  A float is kept as the
    expression that produced it, a reading of the clock or such a number plus
    a whole number of seconds, and the comparison of two floats is left to
    the environment: nothing is assumed about rounding. *)
Inductive pyfloat : Type :=
| Reading (ms : Z)
| Plus (x : pyfloat) (seconds : Z).

(** The outside world.  Each answer is a function of the history [list event]
    (most recent event first), so an environment may fail the first call and
    serve the second, change a status after some polls, and so on. *)
Record env : Type := MkEnv {
  (** [hasattr(self._client, "close")] for the varlink client class in use *)
  client_has_close : bool;
  (** [VarlinkClient(address=uri)] *)
  connect : list event -> string -> option fault;
  (** [self._client.open(interface)] *)
  open_iface : list event -> string -> option fault;
  (** [Tunnel(context).bore()] *)
  bore : list event -> option fault;
  (** the daemon's reply to a method called on a channel: a fault, or the
      mapping of named results *)
  reply : list event -> nat -> method -> fault + gmap string pyobj;
  (** milliseconds a daemon call takes *)
  latency : list event -> N;
  (** [FoldedString(x) != y] *)
  folded_ne : pyval -> string -> bool;
  (** the fixed table of [error_factory]: daemon error identifier to class *)
  ERROR_MAP : string -> option kind;
  (** [getpass.getuser()] *)
  getuser : string;
  (** [x < y] on floats *)
  float_lt : pyfloat -> pyfloat -> bool
}.

(** The comparison of a machine whose floats do not round. *)
Fixpoint exact_ms (x : pyfloat) : Z :=
  match x with
  | Reading ms => ms
  | Plus x seconds => (exact_ms x + 1000 * seconds)%Z
  end.

Definition exact_lt (x y : pyfloat) : bool := (exact_ms x <? exact_ms y)%Z.

(** Modelled from the spec: [podman/libs/tunnel.py] is not among the sources;
    its [Context] is the ConnectionContext record of the data model, with the
    fields in the order [BaseClient.factory] passes them. *)
Record Context : Type := MkContext {
  uri : string;
  interface : string;
  local_socket : option string;
  remote_socket : option string;
  username : option string;
  hostname : option string;
  port : option Z;
  identity_file : pyval;
  ignore_hosts : pyval;
  known_hosts : pyval
}.

(** The mutable objects: one client object ([_client], [_iface] and, for a
    remote client, [_portal]), one model object ([data], whose keys are also
    its attributes), the clock, the handle counter and the history. *)
Record state : Type := MkState {
  _client : option nat;
  _iface : option nat;
  _portal : gmap string nat;
  data : gmap string pyval;
  now : Z;
  fresh : nat;
  trace : list event
}.

Definition set_client (v : option nat) (s : state) : state :=
  MkState v (_iface s) (_portal s) (data s) (now s) (fresh s) (trace s).
Definition set_iface (v : option nat) (s : state) : state :=
  MkState (_client s) v (_portal s) (data s) (now s) (fresh s) (trace s).
Definition set_portal (v : gmap string nat) (s : state) : state :=
  MkState (_client s) (_iface s) v (data s) (now s) (fresh s) (trace s).
Definition set_data (v : gmap string pyval) (s : state) : state :=
  MkState (_client s) (_iface s) (_portal s) v (now s) (fresh s) (trace s).
Definition set_now (v : Z) (s : state) : state :=
  MkState (_client s) (_iface s) (_portal s) (data s) v (fresh s) (trace s).
Definition log (e : event) (s : state) : state :=
  MkState (_client s) (_iface s) (_portal s) (data s) (now s) (fresh s)
          (e :: trace s).
Definition alloc (s : state) : state :=
  MkState (_client s) (_iface s) (_portal s) (data s) (now s) (S (fresh s))
          (trace s).

Definition init_state : state := MkState None None ∅ ∅ 0 0 [].

(** ** The monad *)

(** A call returns, raises, or is still running when the fuel of the
    enclosing loop is spent. *)
Inductive result (A : Type) : Type :=
| Ret (a : A)
| Raise (e : exn)
| Pending.
Arguments Ret {A} a.
Arguments Raise {A} e.
Arguments Pending {A}.

Definition M (A : Type) : Type := state -> result A * state.

Definition ret {A} (a : A) : M A := fun s => (Ret a, s).
Definition raise {A} (e : exn) : M A := fun s => (Raise e, s).
Definition bind {A B} (m : M A) (k : A -> M B) : M B :=
  fun s =>
    match m s with
    | (Ret a, s1) => k a s1
    | (Raise e, s1) => (Raise e, s1)
    | (Pending, s1) => (Pending, s1)
    end.

Notation "x <- m ;; k" := (bind m (fun x => k))
  (at level 100, m at next level, right associativity).
Notation "m ;;; k" := (bind m (fun _ => k))
  (at level 100, right associativity).

Definition modify (f : state -> state) : M unit := fun s => (Ret tt, f s).
Definition pending {A} : M A := fun s => (Pending, s).

(** [m[k]] on a mapping. *)
Definition getitem {V} (m : gmap string V) (k : string) : M V :=
  match m !! k with
  | Some v => ret v
  | None => raise (KeyError k)
  end.

(** A named result indexed by a string key, [o[k]]: only a mapping allows
    it; a scalar, a string or a list raises TypeError. *)
Definition as_dict (o : pyobj) : M (gmap string pyval) :=
  match o with
  | Dict d => ret d
  | Val _ => raise (TypeError "not a mapping")
  end.

(** [UserDict.update(other)] with a named result.  A mapping is merged into
    [data].  Anything else is iterated, each item being unpacked as a key and
    a value and stored at once: a string of two characters is such an item;
    the first item of another length raises ValueError, the items before it
    staying stored; a value that cannot be iterated raises TypeError. *)
Fixpoint update_items (l : list string) : M unit :=
  match l with
  | [] => ret tt
  | String k (String v EmptyString) :: l' =>
    modify (fun s =>
      set_data (<[String k EmptyString := PStr (String v EmptyString)]>
                  (data s)) s) ;;;
    update_items l'
  | EmptyString :: _ =>
    raise (ValueError "not enough values to unpack (expected 2, got 0)")
  | String _ EmptyString :: _ =>
    raise (ValueError "not enough values to unpack (expected 2, got 1)")
  | _ :: _ => raise (ValueError "too many values to unpack (expected 2)")
  end.

Definition UserDict_update (o : pyobj) : M unit :=
  match o with
  | Dict d => modify (fun s => set_data (d ∪ data s) s)
  | Val (PStr EmptyString) => ret tt
  | Val (PStr _) =>
    raise (ValueError "not enough values to unpack (expected 2, got 1)")
  | Val (PList l) => update_items l
  | Val PNone => raise (TypeError "'NoneType' object is not iterable")
  | Val (PBool _) => raise (TypeError "'bool' object is not iterable")
  | Val (PInt _) => raise (TypeError "'int' object is not iterable")
  end.

(** [x == n] and [x != y] for the comparisons the code makes. *)
Definition py_eq_int (o : pyobj) (n : Z) : bool :=
  match o with
  | Val (PInt z) => (z =? n)%Z
  | Val (PBool b) => ((if b then 1 else 0) =? n)%Z
  | _ => false
  end.

Definition py_ne_str (v : pyval) (y : string) : bool :=
  match v with
  | PStr x => negb (String.eqb x y)
  | _ => true
  end.

(** [kwargs.get(k)], with its default [None]. *)
Definition kwargs_get (kwargs : gmap string pyval) (k : string) : pyval :=
  default PNone (kwargs !! k).

(** [time.time()], the float read from the clock, which the model keeps in
    milliseconds, and [time.sleep]. *)
Definition time_time : M pyfloat := fun s => (Ret (Reading (now s)), s).
Definition time_sleep (ms : Z) : M unit :=
  modify (fun s => set_now (now s + ms)%Z (log (EvSleep ms) s)).

(** [self.name] for an attribute bound from [data]. *)
Definition getattr (name : string) : M pyval := fun s =>
  match data s !! name with
  | Some v => (Ret v, s)
  | None => (Raise (AttributeError name), s)
  end.

(** ** podman/client.py *)

Inductive client : Type :=
| LocalClient (ctx : Context)
| RemoteClient (ctx : Context).

Definition _context (c : client) : Context :=
  match c with LocalClient ctx => ctx | RemoteClient ctx => ctx end.

Section Client.
Variable E : env.

(** [BaseClient.open] *)
Definition open (c : client) : M nat := fun s =>
  match connect E (trace s) (uri (_context c)) with
  | Some f => (Raise (raise_of f), log EvOpenFailed s)
  | None =>
    let hc := fresh s in
    let s1 := log (EvClientNew hc (uri (_context c)))
                  (alloc (set_client (Some hc) s)) in
    match open_iface E (trace s1) (interface (_context c)) with
    | Some f => (Raise (raise_of f), log EvOpenFailed s1)
    | None =>
      let h := fresh s1 in
      (Ret h, log (EvIfaceOpen h (interface (_context c)))
                  (alloc (set_iface (Some h) s1)))
    end
  end.

(** [BaseClient.close] *)
Definition close : M unit := fun s =>
  let s1 := match _client s with
            | Some hc =>
              if client_has_close E then log (EvClientClose hc) s else s
            | None => s
            end in
  match _iface s1 with
  | Some h => (Ret tt, log (EvIfaceClose h) s1)
  | None =>
    (Raise (AttributeError "'NoneType' object has no attribute 'close'"), s1)
  end.

(** Modelled from the spec: [podman/libs/errors.py] is not among the sources.
    The Fault Translator maps an error identifier through a fixed table by
    exact match and falls back to ErrorOccurred, keeping the message. *)
Definition error_factory (v : varlink_error) : typed_error :=
  MkTypedError (default ErrorOccurred (ERROR_MAP E (ve_error v)))
               (ve_message v) (ve_error v).

(** Modelled from the spec: [Portal] and [Tunnel] of [podman/libs/tunnel.py]
    are not among the sources.  The Portal is a mapping from key to tunnel
    read with [get] and written with [portal[key] = tunnel]; [bore] starts a
    tunnel or fails; [Tunnel.close] shuts it. *)
Definition Portal_get (key : string) : M (option nat) :=
  fun s => (Ret (_portal s !! key), s).

Definition Portal_setitem (key : string) (t : nat) : M unit :=
  modify (fun s => set_portal (<[key := t]> (_portal s)) s).

Definition Tunnel_bore (ctx : Context) : M nat := fun s =>
  match bore E (trace s) with
  | Some f => (Raise (raise_of f), log EvBoreFailed s)
  | None => (Ret (fresh s), log (EvBore (fresh s)) (alloc s))
  end.

Definition Tunnel_close (t : nat) : M unit := modify (log (EvTunnelClose t)).

(** [try: m  except Exception: h] *)
Definition try_except {A} (m : M A) (h : exn -> M A) : M A := fun s =>
  match m s with
  | (Raise e, s1) => h e s1
  | r => r
  end.

(** The first statements of [RemoteClient.__enter__]: the value of [tunnel]
    when the [try] is reached. *)
Definition obtain_tunnel (ctx : Context) : M nat :=
  t0 <- Portal_get (uri ctx) ;;
  match t0 with
  | Some t => ret t
  | None =>
    t <- Tunnel_bore ctx ;;
    Portal_setitem (uri ctx) t ;;;
    ret t
  end.

(** [LocalClient.__enter__] and [RemoteClient.__enter__] *)
Definition __enter__ (c : client) : M nat :=
  match c with
  | LocalClient _ => open c
  | RemoteClient ctx =>
    tunnel <- obtain_tunnel ctx ;;
    try_except (open c) (fun e => Tunnel_close tunnel ;;; raise e)
  end.

(** [LocalClient.__exit__] and [RemoteClient.__exit__]; [e] is the pending
    exception, if any.  Both return [None]. *)
Definition __exit__ (c : client) (e : option exn) : M unit :=
  match c with
  | LocalClient _ =>
    close ;;;
    match e with
    | Some (VarlinkError v) => raise (PodmanError (error_factory v))
    | _ => ret tt
    end
  | RemoteClient _ =>
    close ;;;
    match e with
    | Some (VarlinkError v) => raise (PodmanError (error_factory v))
    | _ => ret tt
    end
  end.

(** [with self._client() as podman: body].  [__call__] returns the client
    object itself, so every such statement works on the same [_client] and
    [_iface].  [__exit__] returns a false value, so a pending exception is
    re-raised unless [__exit__] raises one of its own. *)
Definition with_ {A} (c : client) (body : nat -> M A) : M A := fun s =>
  match __enter__ c s with
  | (Ret podman, s1) =>
    match body podman s1 with
    | (Ret a, s2) =>
      match __exit__ c None s2 with
      | (Ret _, s3) => (Ret a, s3)
      | (Raise e', s3) => (Raise e', s3)
      | (Pending, s3) => (Pending, s3)
      end
    | (Raise e, s2) =>
      match __exit__ c (Some e) s2 with
      | (Ret _, s3) => (Raise e, s3)
      | (Raise e', s3) => (Raise e', s3)
      | (Pending, s3) => (Pending, s3)
      end
    | (Pending, s2) => (Pending, s2)
    end
  | (Raise e, s1) => (Raise e, s1)
  | (Pending, s1) => (Pending, s1)
  end.

(** A daemon method called on channel [podman]. *)
Definition call (podman : nat) (m : method) : M (gmap string pyobj) := fun s =>
  let s1 := set_now (now s + Z.of_N (latency E (trace s)))%Z
                    (log (EvCall podman m) s) in
  match reply E (trace s) podman m with
  | inl f => (Raise (raise_of f), s1)
  | inr r => (Ret r, s1)
  end.

End Client.

(** *** BaseClient.factory *)

(** The attributes of a [urllib.parse.urlparse] result that the factory
    reads; [port] is a property that raises on a malformed port. *)
Record ParseResult : Type := MkParseResult {
  pr_path : string;
  pr_username : option string;
  pr_hostname : option string;
  pr_port : exn + option Z
}.

Definition dquote : string := String "034"%char EmptyString.

(** [sep.join(l)] *)
Fixpoint join (sep : string) (l : list string) : string :=
  match l with
  | [] => ""
  | [x] => x
  | x :: l' => x ++ sep ++ join sep l'
  end.

Definition supported : gset string :=
  {[ "uri"; "interface"; "remote_uri"; "identity_file"; "ignore_hosts";
     "known_hosts" ]}.

(** [required.format(field)] *)
Definition required (field : string) : string :=
  field ++ " is required, expected format " ++ dquote
        ++ "ssh://user@hostname[:port]/path_to_socket" ++ dquote ++ ".".

Definition path_required : string :=
  "path is required for uri, expected format " ++ dquote
    ++ "unix://path_to_socket" ++ dquote.

(** The logging set-up at the head of [BaseClient.factory]: nothing when
    PODMAN_LOG_LEVEL is unset; otherwise
    [logging.basicConfig(level=logging.getLevelName(log_level.upper()))]
    and [logging.debug], which belong to the Python library and are taken
    as the parameter [basicConfig]: the exception they raise for the value
    of the variable, if any (a ValueError for a name that is not a level,
    when the root logger is still unconfigured). *)
Definition log_head (PODMAN_LOG_LEVEL : option string)
    (basicConfig : string -> option exn) : option exn :=
  match PODMAN_LOG_LEVEL with
  | None => None
  | Some log_level => basicConfig log_level
  end.

Section Factory.
(** [urlparse] belongs to the Python library: it is a parameter.  It may
    raise on an argument that is not a string. *)
Variable urlparse : pyval -> exn + ParseResult.
(** [os.environ.get("PODMAN_LOG_LEVEL")] and the library's logging set-up
    for it. *)
Variable PODMAN_LOG_LEVEL : option string.
Variable basicConfig : string -> option exn.
(** The order in which Python iterates over a set of strings is not
    specified (it varies with the hash seed): the list of the elements of a
    set in that order is a parameter. *)
Variable set_iter : gset string -> list string.

(** [BaseClient.factory]. *)
Definition factory (uri interface : option string)
    (kwargs : gmap string pyval) : exn + client :=
  match log_head PODMAN_LOG_LEVEL basicConfig with
  | Some e => inl e
  | None =>
  match uri with
  | None => inl (ValueError "uri is required and cannot be None")
  | Some uri =>
  match interface with
  | None => inl (ValueError "interface is required and cannot be None")
  | Some interface =>
  let unsupported := dom kwargs ∖ supported in
  if negb (bool_decide (unsupported = ∅)) then
    inl (ValueError ("Unknown keyword arguments: "
                       ++ join ", " (set_iter unsupported)))
  else
  match urlparse (PStr uri) with
  | inl e => inl e
  | inr local =>
  let local_path := pr_path local in
  if String.eqb local_path "" then inl (ValueError path_required)
  else
  match kwargs_get kwargs "remote_uri" with
  | PNone =>
    inr (LocalClient
           (MkContext uri interface None None None None None PNone PNone PNone))
  | remote_uri =>
  match urlparse remote_uri with
  | inl e => inl e
  | inr remote =>
  match pr_username remote with
  | None => inl (ValueError (required "username"))
  | Some user =>
  if String.eqb (pr_path remote) "" then inl (ValueError (required "path"))
  else
  match pr_hostname remote with
  | None => inl (ValueError (required "hostname"))
  | Some host =>
  match pr_port remote with
  | inl e => inl e
  | inr port =>
    inr (RemoteClient
           (MkContext uri interface (Some local_path) (Some (pr_path remote))
                      (Some user) (Some host) port
                      (kwargs_get kwargs "identity_file")
                      (kwargs_get kwargs "ignore_hosts")
                      (kwargs_get kwargs "known_hosts")))
  end end end end end end end end end.

End Factory.

(** *** RemoteClient.__enter__ under interleaving

    When several callers enter through the same client object, a switch can
    fall between any two statements of [RemoteClient.__enter__].  Each caller
    is a small machine whose steps are those statements; the shared objects
    are the [state]. *)

Inductive pc : Type :=
| AtGet                       (* before [tunnel = self._portal.get(uri)] *)
| AtBore                      (* [tunnel is None]: before [bore()] *)
| AtStore (t : nat)           (* before [self._portal[uri] = tunnel] *)
| AtOpen (t : nat)            (* before the [try: return self.open()] *)
| Done (t : option nat) (r : result nat).

Section Interleaving.
Variable E : env.
Variable ctx : Context.

Definition step (p : pc) (s : state) : pc * state :=
  match p with
  | AtGet =>
    match Portal_get (uri ctx) s with
    | (Ret (Some t), s1) => (AtOpen t, s1)
    | (_, s1) => (AtBore, s1)
    end
  | AtBore =>
    match Tunnel_bore E ctx s with
    | (Ret t, s1) => (AtStore t, s1)
    | (r, s1) => (Done None r, s1)
    end
  | AtStore t => (AtOpen t, snd (Portal_setitem (uri ctx) t s))
  | AtOpen t =>
    let '(r, s1) := try_except (open E (RemoteClient ctx))
                      (fun e => Tunnel_close t ;;; raise e) s in
    (Done (Some t) r, s1)
  | Done t r => (Done t r, s)
  end.

(** [run sched ths s]: thread [i] takes one step for each [i] in [sched]. *)
Fixpoint run (sched : list nat) (ths : list pc) (s : state)
  : list pc * state :=
  match sched with
  | [] => (ths, s)
  | i :: sched' =>
    match ths !! i with
    | Some p => let '(p', s') := step p s in run sched' (<[i := p']> ths) s'
    | None => run sched' ths s
    end
  end.


End Interleaving.

(** Number of events of a trace that satisfy [p]. *)
Fixpoint count (p : event -> bool) (tr : list event) : nat :=
  match tr with
  | [] => 0
  | e :: tr' => (if p e then 1 else 0) + count p tr'
  end.

Definition is_iface_close (h : nat) (e : event) : bool :=
  match e with EvIfaceClose h' => Nat.eqb h h' | _ => false end.

Definition is_tunnel_close (t : nat) (e : event) : bool :=
  match e with EvTunnelClose t' => Nat.eqb t t' | _ => false end.

Definition is_bore (e : event) : bool :=
  match e with EvBore _ => true | _ => false end.

Definition is_sleep (e : event) : bool :=
  match e with EvSleep _ => true | _ => false end.

Definition is_fetch (id : string) (e : event) : bool :=
  match e with
  | EvCall _ (GetContainer id') => String.eqb id id'
  | _ => false
  end.

(** The daemon calls of a trace, most recent first. *)
Fixpoint calls (tr : list event) : list (nat * method) :=
  match tr with
  | [] => []
  | EvCall h m :: tr' => (h, m) :: calls tr'
  | _ :: tr' => calls tr'
  end.

(** ** podman/libs/containers.py *)

(** What a method hands back when it returns the model object or nothing. *)
Inductive retval : Type := RSelf | RNone.

Module Container.
Section Container.
Variable E : env.
Variable _client : client.
Variable _id : string.

(** What follows [super().update(...)]: the [setattr] loop (attributes are
    the keys of [data]) and the [running] alias. *)
Definition set_attributes : M unit :=
  modify (fun s =>
    let d1 := data s in
    let d2 := match d1 !! "containerrunning" with
              | Some v => <["running" := v]> d1
              | None => d1
              end in
    set_data d2 s).

(** [Container._refresh]; each level of the recursion spends one unit of
    [fuel].  The retry branch has no [return], so it yields [None]. *)
Fixpoint _refresh (fuel : nat) (podman : nat) (tries : nat) : M retval :=
  match fuel with
  | 0 => pending
  | S fuel' => fun s =>
    match call E podman (GetContainer _id) s with
    | (Raise BrokenPipeError, s1) =>
      if (3 <? tries)%nat then (Raise BrokenPipeError, s1)
      else (with_ E _client (fun pman => _refresh fuel' pman (tries + 1)) ;;;
            ret RNone) s1
    | (Raise e, s1) => (Raise e, s1)
    | (Pending, s1) => (Pending, s1)
    | (Ret ctnr, s1) =>
      (o <- getitem ctnr "container" ;;
       UserDict_update o ;;;
       set_attributes ;;;
       ret RSelf) s1
    end
  end.


(** The [while True] loop of [Container.kill], one unit of [fuel] per poll;
    [wait] is a whole number of seconds and [timeout] the float
    [time.time() + wait]. *)
Fixpoint kill_loop (fuel : nat) (podman : nat) (wait : Z) (timeout : pyfloat)
  : M retval :=
  match fuel with
  | 0 => pending
  | S fuel' =>
    _refresh fuel podman 1 ;;;
    status <- getattr "status" ;;
    if py_ne_str status "running" then ret RSelf
    else
      t <- time_time ;;
      if negb (wait =? 0)%Z && float_lt E timeout t then raise TimeoutError
      else time_sleep 500 ;;; kill_loop fuel' podman wait timeout
  end.

(** [Container.kill] *)
Definition kill (fuel : nat) (sig : Z) (wait : Z) : M retval :=
  with_ E _client (fun podman =>
    call E podman (KillContainer _id sig) ;;;
    t <- time_time ;;
    kill_loop fuel podman wait (Plus t wait)).

(** [c.count('=')] *)
Fixpoint count_char (a : ascii) (s : string) : nat :=
  match s with
  | EmptyString => 0
  | String b s' => (if Ascii.eqb a b then 1 else 0) + count_char a s'
  end.

(** The strings a [for c in change] loop visits. *)
Definition iter_strings (v : pyval) : M (list string) :=
  match v with
  | PList l => ret l
  | PStr s => ret ((fun a => String a EmptyString) <$> list_ascii_of_string s)
  | _ => raise (TypeError "object is not iterable")
  end.

(** The [for c in change] loop of [Container.commit]. *)
Fixpoint check_labels (l : list string) : M unit :=
  match l with
  | [] => ret tt
  | c :: l' =>
    if String.prefix "LABEL=" c && (count_char "=" c <? 2)%nat
    then raise (ValueError
           ("LABEL should have the format: LABEL=label=value, not " ++ c))
    else check_labels l'
  end.

(** [Container.commit] *)
Definition commit (image_name : string) (kwargs : gmap string pyval)
  : M pyval :=
  let author := py_or (kwargs_get kwargs "author") (PStr (getuser E)) in
  let change := py_or (kwargs_get kwargs "change") (PList []) in
  let message := py_or (kwargs_get kwargs "message") (PStr "") in
  let pause := py_or (kwargs_get kwargs "pause") (PBool true) in
  l <- iter_strings change ;;
  check_labels l ;;;
  results <- with_ E _client (fun podman =>
    call E podman
      (Commit (MkCommitArgs _id image_name change author message pause))) ;;
  o <- getitem results "reply" ;;
  d <- as_dict o ;;
  getitem d "id".

End Container.
End Container.

Module Containers.
Section Containers.
Variable E : env.
Variable _client : client.

(** [Containers.exists]; the body of the [with] either returns [True] or
    falls through to the [return False] after it. *)
Definition exists_ (id_ : string) : M bool :=
  returned <- with_ E _client (fun podman =>
    exist <- call E podman (ContainerExists id_) ;;
    o <- getitem exist "exists" ;;
    if py_eq_int o 0 then ret (Some true) else ret None) ;;
  match returned with
  | Some b => ret b
  | None => ret false
  end.

End Containers.
End Containers.

(** ** podman/libs/pods.py *)

Module Pod.
Section Pod.
Variable E : env.
Variable _client : client.
Variable _ident : string.

(** [Pod._refresh] *)
Definition _refresh (podman : nat) : M retval :=
  pod <- call E podman (GetPod _ident) ;;
  o <- getitem pod "pod" ;;
  UserDict_update o ;;;
  ret RSelf.

(** The [while True] loop of [Pod.kill]; it ends by [break]. *)
Fixpoint kill_loop (fuel : nat) (podman : nat) (wait : Z) (timeout : pyfloat)
  : M unit :=
  match fuel with
  | 0 => pending
  | S fuel' =>
    _refresh podman ;;;
    status <- getattr "status" ;;
    if folded_ne E status "running" then ret tt
    else
      t <- time_time ;;
      if negb (wait =? 0)%Z && float_lt E timeout t then raise TimeoutError
      else time_sleep 500 ;;; kill_loop fuel' podman wait timeout
  end.

(** [Pod.kill] *)
Definition kill (fuel : nat) (signal_ : Z) (wait : Z) : M retval :=
  with_ E _client (fun podman =>
    call E podman (KillPod _ident signal_) ;;;
    t <- time_time ;;
    kill_loop fuel podman wait (Plus t wait)) ;;;
  ret RSelf.

End Pod.
End Pod.

(** ** Sample environments and inputs *)

(** An environment in which nothing fails and every reply is empty. *)
Definition quiet : env :=
  MkEnv false (fun _ _ => None) (fun _ _ => None) (fun _ => None)
        (fun _ _ _ => inr ∅) (fun _ => 0%N) py_ne_str
        (fun n => if String.eqb n "io.podman.ContainerNotFound"
                  then Some ContainerNotFound else None)
        "root" exact_lt.

Definition local_ctx : Context :=
  MkContext "unix:/run/podman/io.podman" "io.podman"
            None None None None None PNone PNone PNone.

Definition remote_ctx : Context :=
  MkContext "unix:/tmp/podman.sock" "io.podman"
            (Some "/tmp/podman.sock") (Some "/run/podman/io.podman")
            (Some "user") (Some "host") None PNone PNone PNone.

(** An environment whose daemon answers every call with [exists = 0]. *)
Definition quiet_exists : env :=
  MkEnv false (fun _ _ => None) (fun _ _ => None) (fun _ => None)
        (fun _ _ _ => inr {[ "exists" := Val (PInt 0) ]}) (fun _ => 0%N)
        py_ne_str (fun _ => None) "root" exact_lt.

(** A [urlparse] that knows four addresses, with the attributes
    [urllib.parse.urlparse] gives them: the username of an address with an
    empty user part, as in ssh://@host/path, is the empty string. *)
Definition sample_urlparse (v : pyval) : exn + ParseResult :=
  match v with
  | PStr "unix:/run/podman/io.podman" =>
    inr (MkParseResult "/run/podman/io.podman" None None (inr None))
  | PStr "ssh://user@host/run/podman/io.podman" =>
    inr (MkParseResult "/run/podman/io.podman" (Some "user") (Some "host")
                       (inr None))
  | PStr "ssh://host/run/podman/io.podman" =>
    inr (MkParseResult "/run/podman/io.podman" None (Some "host") (inr None))
  | PStr "ssh://@host/run/podman/io.podman" =>
    inr (MkParseResult "/run/podman/io.podman" (Some "") (Some "host")
                       (inr None))
  | _ => inl (TypeError "address not in the sample")
  end.

(** An environment in which the daemon cannot be reached. *)
Definition unreachable : env :=
  MkEnv false (fun _ _ => Some (FConnection "refused")) (fun _ _ => None)
        (fun _ => None) (fun _ _ _ => inr ∅) (fun _ => 0%N) py_ne_str
        (fun _ => None) "root" exact_lt.

(** A client object whose Portal already holds tunnel 7 for its key. *)
Definition reusing : state :=
  MkState None None {[ uri remote_ctx := 7 ]} ∅ 0 8 [].



(** A daemon whose channels are always reset. *)
Definition broken_pipe : env :=
  MkEnv false (fun _ _ => None) (fun _ _ => None) (fun _ => None)
        (fun _ _ _ => inl FBrokenPipe) (fun _ => 0%N) py_ne_str
        (fun _ => None) "root" exact_lt.

(** ** Vocabulary of the statements *)



(** A computation that always ends, by returning or by raising. *)
Definition finishes {A} (m : M A) : Prop :=
  forall s, fst (m s) <> Pending.

(** The state after the client half of [BaseClient.close]. *)
Definition client_closed (E : env) (s : state) : state :=
  match _client s with
  | Some hc => if client_has_close E then log (EvClientClose hc) s else s
  | None => s
  end.

(** What a pending exception becomes on release. *)
Definition translated (E : env) (e : exn) : exn :=
  match e with
  | VarlinkError v => PodmanError (error_factory E v)
  | _ => e
  end.

(** A predicate on events that only daemon calls satisfy. *)
Definition only_calls (p : event -> bool) : Prop :=
  forall e, p e = true -> exists h m, e = EvCall h m.

(** Events other than daemon calls. *)
Definition not_call (e : event) : Prop :=
  match e with EvCall _ _ => False | _ => True end.

(** A computation that only appends events other than calls. *)
Definition silent {A} (m : M A) : Prop :=
  forall s, exists evs,
    trace (snd (m s)) = (evs ++ trace s)%list /\ Forall not_call evs.

(** Events that an acquisition can append, and events that a release can. *)
Definition acquire_event (e : event) : Prop :=
  match e with
  | EvClientNew _ _ | EvIfaceOpen _ _ | EvOpenFailed
  | EvBore _ | EvBoreFailed | EvTunnelClose _ => True
  | _ => False
  end.


Definition is_any_iface_close (e : event) : bool :=
  match e with EvIfaceClose _ => true | _ => false end.

Definition is_any_tunnel_close (e : event) : bool :=
  match e with EvTunnelClose _ => true | _ => false end.

Definition is_client_new (e : event) : bool :=
  match e with EvClientNew _ _ => true | _ => false end.






(** A daemon that answers every call with a varlink error. *)
Definition faulty : env :=
  MkEnv false (fun _ _ => None) (fun _ _ => None) (fun _ => None)
        (fun _ _ _ =>
           inl (FVarlink (MkVarlinkError "io.podman.ContainerNotFound" "c")))
        (fun _ => 0%N) py_ne_str
        (fun n => if String.eqb n "io.podman.ContainerNotFound"
                  then Some ContainerNotFound else None)
        "root" exact_lt.

(** A daemon whose channels are reset at every pod fetch. *)
Definition pod_pipe : env :=
  MkEnv false (fun _ _ => None) (fun _ _ => None) (fun _ => None)
        (fun _ _ m => match m with
                      | GetPod _ => inl FBrokenPipe
                      | _ => inr ∅
                      end)
        (fun _ => 0%N) py_ne_str (fun _ => None) "root" exact_lt.

(** The test of the [for c in change] loop: a LABEL entry without a value. *)
Definition malformed_label (c : string) : bool :=
  String.prefix "LABEL=" c && (Container.count_char "=" c <? 2)%nat.

(** A daemon that answers every call with the id of a new image. *)
Definition committing : env :=
  MkEnv false (fun _ _ => None) (fun _ _ => None) (fun _ => None)
        (fun _ _ _ => inr {[ "reply" := Dict {[ "id" := PStr "img1" ]} ]})
        (fun _ => 0%N) py_ne_str (fun _ => None) "root" exact_lt.

(** Callers that may still bore a tunnel. *)
Definition waiting (p : pc) : nat :=
  match p with AtGet | AtBore => 1 | _ => 0 end.

Fixpoint total_waiting (ths : list pc) : nat :=
  match ths with
  | [] => 0
  | p :: ths' => waiting p + total_waiting ths'
  end.



(** ** podman/libs/images.py: Image._split_token *)

Module Image.

(** [s[n:]] *)
Fixpoint drop (n : nat) (s : string) : string :=
  match n, s with
  | 0, _ => s
  | S n', String _ s' => drop n' s'
  | S _, EmptyString => EmptyString
  end.

(** [s.split(sep, 1)] for a non-empty [sep]: the parts before and after the
    leftmost occurrence of [sep], or nothing when [sep] does not occur (the
    split then has one part only). *)
Fixpoint split1 (sep s : string) {struct s} : option (string * string) :=
  if String.prefix sep s
  then Some (EmptyString, drop (String.length sep) s)
  else match s with
       | EmptyString => None
       | String a s' =>
         match split1 sep s' with
         | Some (k, v) => Some (String a k, v)
         | None => None
         end
       end.

(** The dict comprehension: each item is split and unpacked into [k, v1],
    later items overriding earlier ones.  An empty separator makes [split]
    raise; an item without separator cannot be unpacked. *)
Fixpoint collect (sep : string) (values : list string)
    (acc : gmap string string) : exn + gmap string string :=
  match values with
  | [] => inr acc
  | v0 :: rest =>
    if String.eqb sep "" then inl (ValueError "empty separator")
    else
      match split1 sep v0 with
      | None =>
        inl (ValueError "not enough values to unpack (expected 2, got 1)")
      | Some (k, v1) => collect sep rest (<[k := v1]> acc)
      end
  end.

(** [Image._split_token(values, sep)], [values] being [None] or a list of
    strings. *)
Definition _split_token (values : option (list string)) (sep : string)
  : exn + gmap string string :=
  match values with
  | None | Some [] => inr ∅
  | Some vs => collect sep vs ∅
  end.

End Image.

(** ** Polling histories *)










(** ** The session: acquisition and release *)

Local Open Scope list_scope.

Section SessionFacts.
Variable E : env.

Lemma iface_client_closed s : _iface (client_closed E s) = _iface s.
Proof.
  unfold client_closed.
  destruct (_client s); [destruct (client_has_close E)|]; reflexivity.
Qed.

Lemma count_client_closed p s :
  (forall hc, p (EvClientClose hc) = false) ->
  count p (trace (client_closed E s)) = count p (trace s).
Proof.
  intros Hp. unfold client_closed.
  destruct (_client s) as [hc|]; [|reflexivity].
  destruct (client_has_close E); [|reflexivity].
  simpl. now rewrite Hp.
Qed.

Lemma close_spec s h :
  _iface s = Some h ->
  close E s = (Ret tt, log (EvIfaceClose h) (client_closed E s)).
Proof.
  intros Hi. unfold close. fold (client_closed E s).
  now rewrite iface_client_closed, Hi.
Qed.

Lemma exit_spec c e s h :
  _iface s = Some h ->
  __exit__ E c e s =
    (match e with
     | Some (VarlinkError v) => Raise (PodmanError (error_factory E v))
     | _ => Ret tt
     end, log (EvIfaceClose h) (client_closed E s)).
Proof.
  intros Hi. destruct c; unfold __exit__, bind; rewrite (close_spec s h Hi);
    destruct e as [[]|]; reflexivity.
Qed.

Lemma with_spec {A} c (body : nat -> M A) s h s1 r s2 h2 :
  __enter__ E c s = (Ret h, s1) ->
  body h s1 = (r, s2) ->
  _iface s2 = Some h2 ->
  with_ E c body s =
    match r with
    | Ret a => (Ret a, log (EvIfaceClose h2) (client_closed E s2))
    | Raise e =>
      (Raise (translated E e), log (EvIfaceClose h2) (client_closed E s2))
    | Pending => (Pending, s2)
    end.
Proof.
  intros He Hb Hi. unfold with_. rewrite He, Hb.
  destruct r as [a|e|]; [| |reflexivity].
  - now rewrite (exit_spec c None s2 h2 Hi).
  - rewrite (exit_spec c (Some e) s2 h2 Hi). destruct e; reflexivity.
Qed.

End SessionFacts.

Section OpenFacts.
Variable E : env.

Lemma open_portal c s : _portal (snd (open E c s)) = _portal s.
Proof.
  unfold open. destruct (connect E _ _); [reflexivity|].
  destruct (open_iface E _ _); reflexivity.
Qed.

Lemma open_count p c s :
  p EvOpenFailed = false ->
  (forall a b, p (EvClientNew a b) = false) ->
  (forall a b, p (EvIfaceOpen a b) = false) ->
  count p (trace (snd (open E c s))) = count p (trace s).
Proof.
  intros H1 H2 H3. unfold open. destruct (connect E _ _); simpl.
  - now rewrite H1.
  - destruct (open_iface E _ _); simpl; now rewrite ?H1, ?H2, ?H3.
Qed.

Lemma open_iface_some c s h s1 :
  open E c s = (Ret h, s1) -> _iface s1 = Some h.
Proof.
  unfold open. destruct (connect E _ _); [discriminate|].
  destruct (open_iface E _ _); [discriminate|].
  intros [= <- <-]. reflexivity.
Qed.

Lemma obtain_tunnel_inv ctx s t s1 :
  obtain_tunnel E ctx s = (Ret t, s1) ->
  _portal s1 !! uri ctx = Some t /\
  count (is_tunnel_close t) (trace s1) = count (is_tunnel_close t) (trace s).
Proof.
  unfold obtain_tunnel, bind, Portal_get.
  destruct (_portal s !! uri ctx) as [t0|] eqn:Hp.
  - intros [= <- <-]. now split.
  - unfold Tunnel_bore. destruct (bore E (trace s)); [discriminate|].
    intros [= <- <-]. split; [apply lookup_insert_eq | reflexivity].
Qed.

End OpenFacts.

Lemma calls_skip evs tr : Forall not_call evs -> calls (evs ++ tr) = calls tr.
Proof.
  induction 1 as [|e evs He _ IH]; [reflexivity|].
  destruct e; simpl in *; try exact IH. contradiction.
Qed.

Lemma count_app p l1 l2 : count p (l1 ++ l2) = count p l1 + count p l2.
Proof. induction l1 as [|e l1 IH]; simpl; [reflexivity | rewrite IH; lia]. Qed.

Lemma count_skip p evs tr :
  only_calls p -> Forall not_call evs -> count p (evs ++ tr) = count p tr.
Proof.
  intros Hp. induction 1 as [|e evs He _ IH]; [reflexivity|].
  simpl. rewrite IH. destruct (p e) eqn:Hpe; [|reflexivity].
  destruct (Hp e Hpe) as (h & m & ->). contradiction.
Qed.

Section TraceFacts.
Variable E : env.

Lemma open_silent c : silent (open E c).
Proof.
  intros s. unfold open. destruct (connect E _ _).
  - exists [EvOpenFailed]. split; [reflexivity | repeat constructor].
  - destruct (open_iface E _ _).
    + eexists [_; _]. split; [reflexivity | repeat constructor].
    + eexists [_; _]. split; [reflexivity | repeat constructor].
Qed.

Lemma enter_silent c : silent (__enter__ E c).
Proof.
  destruct c as [ctx|ctx]; [apply open_silent|].
  intros s. unfold __enter__, bind, obtain_tunnel, bind, Portal_get.
  assert (Hopen : forall t s0 pre,
    trace s0 = pre ++ trace s -> Forall not_call pre ->
    exists evs,
      trace (snd (try_except (open E (RemoteClient ctx))
               (fun e => Tunnel_close t ;;; raise e) s0)) = evs ++ trace s
      /\ Forall not_call evs).
  { intros t s0 pre Hpre Hnc.
    destruct (open_silent (RemoteClient ctx) s0) as (evs & Hev & Hf).
    unfold try_except.
    destruct (open E (RemoteClient ctx) s0) as [[h|e|] s1]; simpl in *.
    - exists (evs ++ pre). rewrite Hev, Hpre, app_assoc. split; [reflexivity|].
      now apply Forall_app.
    - exists (EvTunnelClose t :: evs ++ pre).
      rewrite Hev, Hpre, app_assoc. split; [reflexivity|].
      constructor; [exact I | now apply Forall_app].
    - exists (evs ++ pre). rewrite Hev, Hpre, app_assoc. split; [reflexivity|].
      now apply Forall_app. }
  destruct (_portal s !! uri ctx) as [t|].
  - apply (Hopen t s []); [reflexivity | constructor].
  - unfold Tunnel_bore. destruct (bore E (trace s)).
    + exists [EvBoreFailed]. split; [reflexivity | repeat constructor].
    + apply (Hopen _ _ [EvBore (fresh s)]); [reflexivity | repeat constructor].
Qed.

Lemma released_trace s h :
  exists evs,
    trace (log (EvIfaceClose h) (client_closed E s)) = evs ++ trace s /\
    Forall not_call evs.
Proof.
  unfold client_closed. destruct (_client s) as [hc|].
  - destruct (client_has_close E).
    + eexists [_; _]. split; [reflexivity | repeat constructor].
    + eexists [_]. split; [reflexivity | repeat constructor].
  - eexists [_]. split; [reflexivity | repeat constructor].
Qed.

Lemma enter_iface c s h s1 : __enter__ E c s = (Ret h, s1) -> _iface s1 = Some h.
Proof.
  destruct c as [ctx|ctx]; [apply open_iface_some|].
  unfold __enter__, bind.
  destruct (obtain_tunnel E ctx s) as [[t| |] s0]; try discriminate.
  unfold try_except.
  destruct (open E (RemoteClient ctx) s0) as [[h'|e|] s'] eqn:Ho;
    try discriminate.
  intros [= <- <-]. eapply open_iface_some, Ho.
Qed.

Lemma call_spec podman m s :
  exists r,
    call E podman m s =
      (r, set_now (now s + Z.of_N (latency E (trace s)))%Z
                  (log (EvCall podman m) s)) /\
    r <> Pending /\
    match reply E (trace s) podman m with
    | inl f => r = Raise (raise_of f)
    | inr v => r = Ret v
    end.
Proof.
  unfold call. destruct (reply E (trace s) podman m); eexists;
    (split; [reflexivity | split; [discriminate | reflexivity]]).
Qed.

(** A [with] statement around one daemon call adds that call, or no call at
    all when the session cannot be acquired. *)
Lemma with_call_calls c m s :
  calls (trace (snd (with_ E c (fun podman => call E podman m) s)))
    = calls (trace s) \/
  exists h,
    calls (trace (snd (with_ E c (fun podman => call E podman m) s)))
      = (h, m) :: calls (trace s).
Proof.
  destruct (enter_silent c s) as (evs & Hev & Hnc).
  destruct (__enter__ E c s) as [[h|e|] s1] eqn:He.
  - right. exists h.
    destruct (call_spec h m s1) as (r & Hc & Hr & _).
    set (s2 := set_now (now s1 + Z.of_N (latency E (trace s1)))%Z
                       (log (EvCall h m) s1)) in *.
    assert (Hi : _iface s2 = Some h) by exact (enter_iface c s h s1 He).
    rewrite (with_spec E c _ s h s1 r s2 h He Hc Hi).
    destruct (released_trace s2 h) as (ev2 & Hev2 & Hnc2).
    assert (Ht2 : calls (trace s2) = (h, m) :: calls (trace s)).
    { subst s2. simpl in *. now rewrite Hev, calls_skip. }
    destruct r; try congruence; cbn [snd];
      rewrite Hev2, calls_skip by assumption; exact Ht2.
  - left. unfold with_. rewrite He. simpl in *. now rewrite Hev, calls_skip.
  - left. unfold with_. rewrite He. simpl in *. now rewrite Hev, calls_skip.
Qed.

End TraceFacts.




(** C3. On release of a session (local or remote) whose enclosed call raised
    [e]: a varlink error is passed through [error_factory] and the typed
    error is raised in its place; any other exception leaves the [with]
    statement unchanged. *)
Theorem release_translates_varlink_errors_only
    (E : env) (c : client) (A : Type) (body : nat -> M A)
    (s : state) (h : nat) (s1 : state) (e : exn) (s2 : state) (h2 : nat) :
  __enter__ E c s = (Ret h, s1) ->
  body h s1 = (Raise e, s2) ->
  _iface s2 = Some h2 ->
  fst (with_ E c body s) =
    Raise (match e with
           | VarlinkError v => PodmanError (error_factory E v)
           | _ => e
           end).
Proof.
  intros He Hb Hi.
  now rewrite (with_spec E c body s h s1 (Raise e) s2 h2 He Hb Hi).
Qed.

Lemma release_translates_varlink_errors_only_witness :
  fst (with_ (A := pyval) quiet (RemoteClient remote_ctx)
         (fun _ => raise (VarlinkError
                     (MkVarlinkError "io.podman.ContainerNotFound" "no c")))
         init_state)
  = Raise (PodmanError
             (MkTypedError ContainerNotFound "no c"
                           "io.podman.ContainerNotFound")).
Proof.
  apply (release_translates_varlink_errors_only quiet (RemoteClient remote_ctx)
           pyval
           (fun _ => raise (VarlinkError
                       (MkVarlinkError "io.podman.ContainerNotFound" "no c")))
           init_state 2
           (snd (__enter__ quiet (RemoteClient remote_ctx) init_state))
           (VarlinkError (MkVarlinkError "io.podman.ContainerNotFound" "no c"))
           (snd (__enter__ quiet (RemoteClient remote_ctx) init_state)) 2).
  - reflexivity.
  - reflexivity.
  - reflexivity.
Defined.

(** C2, on the code.  With tunnel 7 already in the Portal and a daemon that
    cannot be reached, the acquisition reuses tunnel 7, fails to open the
    channel, and closes tunnel 7 before the error propagates: the reused
    tunnel is not left open. *)
Lemma reused_tunnel_closed_on_open_failure :
  _portal reusing !! uri remote_ctx = Some 7 /\
  count is_bore
    (trace (snd (__enter__ unreachable (RemoteClient remote_ctx) reusing))) = 0
  /\
  __enter__ unreachable (RemoteClient remote_ctx) reusing =
    (Raise (ConnectionError "refused"),
     MkState None None {[ uri remote_ctx := 7 ]} ∅ 0 8
             [EvTunnelClose 7; EvOpenFailed]).
Proof. repeat split. Qed.

(** C2, amended.  When a remote acquisition has obtained tunnel [t], created
    in this acquisition or reused from the Portal alike, and then fails to
    open the channel, the error propagates unchanged, tunnel [t] is closed
    once, and the Portal keeps its entry for [t]. *)
Theorem open_failure_closes_obtained_tunnel
    (E : env) (ctx : Context) (s : state) (t : nat) (s1 : state)
    (e : exn) (s2 : state) :
  obtain_tunnel E ctx s = (Ret t, s1) ->
  open E (RemoteClient ctx) s1 = (Raise e, s2) ->
  __enter__ E (RemoteClient ctx) s = (Raise e, log (EvTunnelClose t) s2) /\
  count (is_tunnel_close t) (trace (log (EvTunnelClose t) s2))
    = S (count (is_tunnel_close t) (trace s)) /\
  _portal (log (EvTunnelClose t) s2) !! uri ctx = Some t.
Proof.
  intros Ho Hop.
  destruct (obtain_tunnel_inv E ctx s t s1 Ho) as [Hp Hc].
  split; [|split].
  - unfold __enter__, bind. rewrite Ho. unfold try_except. now rewrite Hop.
  - simpl. rewrite Nat.eqb_refl.
    replace s2 with (snd (open E (RemoteClient ctx) s1)) by now rewrite Hop.
    rewrite open_count by reflexivity. now rewrite Hc.
  - simpl. replace s2 with (snd (open E (RemoteClient ctx) s1))
      by now rewrite Hop.
    now rewrite open_portal.
Qed.

Lemma open_failure_closes_obtained_tunnel_witness :
  __enter__ unreachable (RemoteClient remote_ctx) init_state =
    (Raise (ConnectionError "refused"),
     log (EvTunnelClose 0)
         (snd (open unreachable (RemoteClient remote_ctx)
                 (snd (obtain_tunnel unreachable remote_ctx init_state))))).
Proof.
  apply (open_failure_closes_obtained_tunnel unreachable remote_ctx
           init_state 0
           (snd (obtain_tunnel unreachable remote_ctx init_state))
           (ConnectionError "refused")
           (snd (open unreachable (RemoteClient remote_ctx)
                   (snd (obtain_tunnel unreachable remote_ctx init_state)))));
    reflexivity.
Defined.

Section FacadeFacts.
Variable E : env.

Lemma getitem_state {V} (m : gmap string V) k s : snd (getitem m k s) = s.
Proof. unfold getitem. now destruct (m !! k). Qed.

Lemma as_dict_state o s : snd (as_dict o s) = s.
Proof. now destruct o. Qed.

Lemma iter_strings_state v s : snd (Container.iter_strings v s) = s.
Proof. now destruct v. Qed.

Lemma check_labels_state l s : snd (Container.check_labels l s) = s.
Proof.
  induction l as [|c l IH]; [reflexivity|]. simpl.
  now destruct (String.prefix "LABEL=" c && (Container.count_char "=" c <? 2)%nat).
Qed.

Lemma py_or_true_truthy v : truthy (py_or v (PBool true)) = true.
Proof. unfold py_or. now destruct (truthy v) eqn:Hv. Qed.

End FacadeFacts.

(** C9, amended.  The only daemon call that [Container.commit]
    can add is one [Commit] whose pause flag is [kwargs.get('pause') or
    True]: the caller's value when that is true in the Python sense, and the
    constant [True] otherwise.  So the flag is always true in the Python
    sense, and it is the constant [True] when the caller gave no flag,
    [None], [True] or [False]: a given [False] is replaced by [True]. *)
Theorem commit_always_pauses
    (E : env) (c : client) (id image_name : string)
    (kwargs : gmap string pyval) (s : state) :
  let pause := py_or (kwargs_get kwargs "pause") (PBool true) in
  let tr := trace (snd (Container.commit E c id image_name kwargs s)) in
  (calls tr = calls (trace s) \/
   exists h a, calls tr = (h, Commit a) :: calls (trace s) /\
               ca_pause a = pause) /\
  truthy pause = true /\
  match kwargs_get kwargs "pause" with
  | PNone | PBool _ => pause = PBool true
  | _ => True
  end /\
  pause = (if truthy (kwargs_get kwargs "pause")
           then kwargs_get kwargs "pause" else PBool true).
Proof.
  intros pause tr. split; [|split; [|split]].
  - subst tr. unfold Container.commit, bind.
    pose proof (iter_strings_state
                  (py_or (kwargs_get kwargs "change") (PList [])) s) as H1.
    destruct (Container.iter_strings _ s) as [[l|e|] s1]; simpl in H1; subst s1;
      [|now left|now left].
    pose proof (check_labels_state l s) as H2.
    destruct (Container.check_labels l s) as [[[]|e|] s1]; simpl in H2; subst s1;
      [|now left|now left].
    match goal with
    | |- context [with_ E c (fun podman => call E podman ?m) s] =>
      pose proof (with_call_calls E c m s) as Hw;
      destruct (with_ E c (fun podman => call E podman m) s)
        as [[results|e|] s2]
    end; simpl in Hw.
    + assert (Hs : forall r,
        snd (let '(x, s3) := getitem results "reply" s2 in
             match x with
             | Ret a =>
               (let '(y, s4) := as_dict a s3 in
                match y with
                | Ret d => getitem d "id" s4
                | Raise e => (Raise e, s4)
                | Pending => (Pending, s4)
                end)
             | Raise e => (Raise e, s3)
             | Pending => (Pending, s3)
             end) = r -> r = s2).
      { intros r <-.
        pose proof (getitem_state results "reply" s2) as G1.
        destruct (getitem results "reply" s2) as [[o|e|] s3]; simpl in G1;
          subst s3; try reflexivity.
        pose proof (as_dict_state o s2) as G2.
        destruct (as_dict o s2) as [[d|e|] s4]; simpl in G2; subst s4;
          try reflexivity.
        apply getitem_state. }
      match goal with
      | |- context [snd ?t] => rewrite (Hs (snd t) eq_refl)
      end.
      destruct Hw as [Hw|[h Hw]]; [now left|right].
      eexists h, _. split; [exact Hw | reflexivity].
    + destruct Hw as [Hw|[h Hw]]; [now left|right].
      eexists h, _. split; [exact Hw | reflexivity].
    + destruct Hw as [Hw|[h Hw]]; [now left|right].
      eexists h, _. split; [exact Hw | reflexivity].
  - apply py_or_true_truthy.
  - subst pause. unfold py_or.
    destruct (kwargs_get kwargs "pause") as [|[]| | |]; try exact I; reflexivity.
  - reflexivity.
Qed.

(** C9, on the code.  A flag that is true in the Python sense without
    being [True] is passed on as it is: with [pause=2] the Commit call
    carries 2. *)
Lemma commit_passes_truthy_flag_as_given :
  calls (trace (snd (Container.commit committing (LocalClient local_ctx) "c"
                       "img" {[ "pause" := PInt 2 ]} init_state)))
    = [(1, Commit (MkCommitArgs "c" "img" (PList []) (PStr "root") (PStr "")
                                (PInt 2)))].
Proof. vm_compute. reflexivity. Qed.

(** C10. When the session is acquired and the daemon's ContainerExists reply
    carries the field [exists] with value [o], [Containers.exists] returns
    the truth value of [o == 0]: for an integer reply, [True] exactly when
    that integer is 0 and [False] for every other one. *)
Theorem exists_true_iff_reply_zero
    (E : env) (c : client) (id_ : string) (s : state) (h : nat) (s1 : state)
    (r : gmap string pyobj) (o : pyobj) :
  __enter__ E c s = (Ret h, s1) ->
  reply E (trace s1) h (ContainerExists id_) = inr r ->
  r !! "exists" = Some o ->
  fst (Containers.exists_ E c id_ s) = Ret (py_eq_int o 0) /\
  forall z, o = Val (PInt z) ->
    (fst (Containers.exists_ E c id_ s) = Ret true <-> z = 0%Z) /\
    (fst (Containers.exists_ E c id_ s) = Ret false <-> z <> 0%Z).
Proof.
  intros He Hr Ho.
  assert (Hres : fst (Containers.exists_ E c id_ s) = Ret (py_eq_int o 0)).
  { unfold Containers.exists_, bind at 1.
    set (s2 := set_now (now s1 + Z.of_N (latency E (trace s1)))%Z
                       (log (EvCall h (ContainerExists id_)) s1)).
    assert (Hb : (exist <- call E h (ContainerExists id_) ;;
                  o0 <- getitem exist "exists" ;;
                  if py_eq_int o0 0 then ret (Some true) else ret None) s1
                 = (Ret (if py_eq_int o 0 then Some true else None), s2)).
    { unfold bind, call. rewrite Hr. unfold getitem. rewrite Ho.
      unfold ret. now destruct (py_eq_int o 0). }
    assert (Hi : _iface s2 = Some h) by exact (enter_iface E c s h s1 He).
    rewrite (with_spec E c _ s h s1 _ s2 h He Hb Hi).
    now destruct (py_eq_int o 0). }
  split; [exact Hres|].
  intros z ->. rewrite Hres. simpl.
  destruct (Z.eqb_spec z 0); split; split; intros; congruence.
Qed.

Lemma exists_true_iff_reply_zero_witness :
  fst (Containers.exists_ quiet_exists (LocalClient local_ctx) "c" init_state)
    = Ret true.
Proof.
  apply (exists_true_iff_reply_zero quiet_exists (LocalClient local_ctx) "c"
           init_state 1
           (snd (__enter__ quiet_exists (LocalClient local_ctx) init_state))
           {[ "exists" := Val (PInt 0) ]} (Val (PInt 0)));
    reflexivity.
Defined.

Lemma diff_empty_subseteq (X Y : gset string) : X ∖ Y = ∅ <-> X ⊆ Y.
Proof.
  split.
  - intros H x Hx. destruct (decide (x ∈ Y)) as [|Hn]; [assumption|].
    assert (x ∈ X ∖ Y) as Hin by (now apply elem_of_difference).
    rewrite H in Hin. now apply not_elem_of_empty in Hin.
  - intros H. apply leibniz_equiv, elem_of_equiv_empty. intros x Hx.
    apply elem_of_difference in Hx as [Hx Hn]. apply Hn, H, Hx.
Qed.





(** ** Polling: [kill] *)

Section TimeoutFacts.
Variable E : env.





















End TimeoutFacts.


(** ** Refresh with retry *)

Section RetryFacts.
Variable E : env.
Variable c : client.
Variable id : string.

Lemma exit_silent c0 e : silent (__exit__ E c0 e).
Proof.
  intros s. destruct c0; unfold __exit__, bind, close;
    (destruct (_client s) as [hc|]; [destruct (client_has_close E)|]);
    simpl; destruct (_iface s) as [h|]; simpl;
    try (destruct e as [[]|]; simpl);
    first [ exists []; split; [reflexivity | constructor]
          | eexists [_]; split; [reflexivity | repeat constructor]
          | eexists [_; _]; split; [reflexivity | repeat constructor] ].
Qed.

Lemma open_finishes c0 : finishes (open E c0).
Proof.
  intros s. unfold open. destruct (connect E _ _); [discriminate|].
  destruct (open_iface E _ _); discriminate.
Qed.

Lemma enter_finishes c0 : finishes (__enter__ E c0).
Proof.
  destruct c0 as [ctx|ctx]; [apply open_finishes|].
  assert (Hopen : forall t s0,
    fst (try_except (open E (RemoteClient ctx))
           (fun e => Tunnel_close t ;;; raise e) s0) <> Pending).
  { intros t s0. unfold try_except.
    pose proof (open_finishes (RemoteClient ctx) s0) as H.
    destruct (open E (RemoteClient ctx) s0) as [[h|e|] s1]; simpl in *;
      [discriminate | discriminate | congruence]. }
  intros s. unfold __enter__, bind, obtain_tunnel, bind, Portal_get.
  destruct (_portal s !! uri ctx) as [t|]; [apply Hopen|].
  unfold Tunnel_bore. destruct (bore E (trace s)); [discriminate|].
  apply Hopen.
Qed.

Lemma exit_finishes c0 e : finishes (__exit__ E c0 e).
Proof.
  intros s. destruct c0; unfold __exit__, bind, close;
    destruct (_iface _); simpl; try discriminate;
    destruct e as [[]|]; discriminate.
Qed.

Lemma with_finishes {A} (body : nat -> M A) :
  (forall h, finishes (body h)) -> finishes (with_ E c body).
Proof.
  intros Hb s. unfold with_. pose proof (enter_finishes c s) as He.
  destruct (__enter__ E c s) as [[h|e|] s1]; simpl in *;
    [|discriminate|congruence].
  specialize (Hb h s1). destruct (body h s1) as [[a|e|] s2]; simpl in *.
  - pose proof (exit_finishes c None s2) as Hx.
    destruct (__exit__ E c None s2) as [[[]|e|] s3]; simpl in *;
      congruence.
  - pose proof (exit_finishes c (Some e) s2) as Hx.
    destruct (__exit__ E c (Some e) s2) as [[[]|e'|] s3]; simpl in *;
      congruence.
  - congruence.
Qed.

Lemma with_count {A} p (body : nat -> M A) s :
  only_calls p ->
  match __enter__ E c s with
  | (Ret h, s1) =>
    count p (trace s1) = count p (trace s) /\
    count p (trace (snd (with_ E c body s)))
      = count p (trace (snd (body h s1)))
  | _ => count p (trace (snd (with_ E c body s))) = count p (trace s)
  end.
Proof.
  intros Hp. unfold with_.
  destruct (enter_silent E c s) as (evs & Hev & Hnc).
  destruct (__enter__ E c s) as [[h|e|] s1]; simpl in *;
    try (now rewrite Hev, count_skip).
  split; [now rewrite Hev, count_skip|].
  destruct (body h s1) as [[a|e|] s2]; simpl; [| |reflexivity].
  - destruct (exit_silent c None s2) as (ev2 & Hev2 & Hnc2).
    destruct (__exit__ E c None s2) as [[[]|e|] s3]; simpl in *;
      now rewrite Hev2, count_skip.
  - destruct (exit_silent c (Some e) s2) as (ev2 & Hev2 & Hnc2).
    destruct (__exit__ E c (Some e) s2) as [[[]|e'|] s3]; simpl in *;
      now rewrite Hev2, count_skip.
Qed.

Lemma is_fetch_only_calls : only_calls (is_fetch id).
Proof. intros [] H; try discriminate. eauto. Qed.

Lemma update_items_trace l : forall s,
  trace (snd (update_items l s)) = trace s.
Proof.
  induction l as [|x l IH]; intros s; [reflexivity|].
  destruct x as [|k [|v [|w x]]]; try reflexivity.
  simpl. unfold bind, modify. now rewrite IH.
Qed.

Lemma UserDict_update_trace o s :
  trace (snd (UserDict_update o s)) = trace s.
Proof.
  destruct o as [[|b|z|[|a x]|l]|d]; try reflexivity.
  apply update_items_trace.
Qed.

Lemma update_items_finishes l : finishes (update_items l).
Proof.
  induction l as [|x l IH]; intros s; [discriminate|].
  destruct x as [|k [|v [|w x]]]; try discriminate.
  simpl. unfold bind, modify. apply IH.
Qed.

Lemma UserDict_update_finishes o : finishes (UserDict_update o).
Proof.
  destruct o as [[|b|z|[|a x]|l]|d]; try (intros s; discriminate).
  apply update_items_finishes.
Qed.

Lemma absorb_trace (r : gmap string pyobj) s :
  trace (snd ((o <- getitem r "container" ;;
               UserDict_update o ;;;
               Container.set_attributes ;;;
               ret RSelf) s)) = trace s.
Proof.
  unfold bind, getitem. destruct (r !! "container") as [o|]; [|reflexivity].
  simpl. pose proof (UserDict_update_trace o s) as Hu.
  destruct (UserDict_update o s) as [[[]|e|] s1]; simpl in *; exact Hu.
Qed.

Lemma refresh_fetch_bound fuel : forall podman tries s,
  count (is_fetch id)
    (trace (snd (Container._refresh E c id fuel podman tries s)))
  <= count (is_fetch id) (trace s) + S (4 - tries).
Proof.
  induction fuel as [|fuel IH]; intros podman tries s; [simpl; lia|].
  simpl. destruct (call_spec E podman (GetContainer id) s)
    as (r & -> & _ & _).
  set (sc := set_now _ _).
  assert (Hsc : count (is_fetch id) (trace sc)
                = S (count (is_fetch id) (trace s))).
  { subst sc. simpl. now rewrite String.eqb_refl. }
  clearbody sc.
  destruct r as [ctnr|e|].
  - rewrite absorb_trace. lia.
  - destruct e; simpl; try lia.
    destruct (3 <? tries)%nat eqn:Ht; [simpl; lia|].
    apply Nat.ltb_ge in Ht.
    pose proof (with_count (is_fetch id)
                  (fun pman => Container._refresh E c id fuel pman (tries + 1))
                  sc is_fetch_only_calls) as Hw.
    unfold bind.
    destruct (with_ E c _ sc) as [[a|e|] s3] eqn:Hwith; simpl in *;
      (destruct (__enter__ E c sc) as [[h|e'|] s1];
       [destruct Hw as [H1 H2]; rewrite H2;
        specialize (IH h (tries + 1) s1); lia
       | lia | lia]).
  - simpl. lia.
Qed.

Lemma refresh_finishes fuel : forall podman tries,
  S (4 - tries) <= fuel ->
  finishes (Container._refresh E c id fuel podman tries).
Proof.
  induction fuel as [|fuel IH]; intros podman tries Hf s; [lia|].
  simpl. destruct (call_spec E podman (GetContainer id) s)
    as (r & -> & Hr & _).
  destruct r as [ctnr|e|]; [| |congruence].
  - unfold bind, getitem.
    destruct (ctnr !! "container") as [o|]; [|discriminate]. simpl.
    match goal with
    | |- context [UserDict_update o ?s0] =>
      pose proof (UserDict_update_finishes o s0) as Hu;
      destruct (UserDict_update o s0) as [[[]|e|] s1]
    end; simpl in *; congruence.
  - destruct e; simpl; try discriminate.
    destruct (3 <? tries)%nat eqn:Ht; [discriminate|].
    apply Nat.ltb_ge in Ht. unfold bind.
    match goal with
    | |- context [with_ E c ?b ?s0] =>
      pose proof (with_finishes b (fun h => IH h (tries + 1) ltac:(lia)) s0)
        as Hw;
      destruct (with_ E c b s0) as [[a|e|] s3]
    end; simpl in *; congruence.
Qed.

Hypothesis Hbp : forall tr h, reply E tr h (GetContainer id) = inl FBrokenPipe.
Hypothesis Hacq : forall s, exists h s1, __enter__ E c s = (Ret h, s1).

Lemma refresh_exhausts fuel : forall podman tries s,
  tries <= 4 -> 5 - tries <= fuel ->
  exists s',
    Container._refresh E c id fuel podman tries s = (Raise BrokenPipeError, s')
    /\ count (is_fetch id) (trace s')
       = count (is_fetch id) (trace s) + (5 - tries)
    /\ (is_Some (_iface s) -> is_Some (_iface s')).
Proof.
  induction fuel as [|fuel IH]; intros podman tries s Ht Hf; [lia|].
  simpl. unfold call. rewrite Hbp. simpl.
  set (sc := set_now _ _).
  assert (Hsc : count (is_fetch id) (trace sc)
                = S (count (is_fetch id) (trace s))).
  { subst sc. simpl. now rewrite String.eqb_refl. }
  destruct (3 <? tries)%nat eqn:H3.
  - apply Nat.ltb_lt in H3. exists sc. split; [reflexivity|].
    split; [lia | intros H; exact H].
  - apply Nat.ltb_ge in H3.
    destruct (Hacq sc) as (h & s1 & He).
    destruct (IH h (tries + 1) s1 ltac:(lia) ltac:(lia))
      as (s2 & Hr & Hc & Hi).
    destruct (Hi ltac:(rewrite (enter_iface E c sc h s1 He); eauto))
      as [h2 Hi2].
    unfold bind.
    rewrite (with_spec E c _ sc h s1 _ s2 h2 He Hr Hi2). simpl.
    eexists. split; [reflexivity|]. split.
    + destruct (released_trace E s2 h2) as (ev & -> & Hnc).
      rewrite count_skip by (auto using is_fetch_only_calls).
      rewrite Hc.
      pose proof (with_count (is_fetch id)
                    (fun pman => Container._refresh E c id fuel pman (tries + 1))
                    sc is_fetch_only_calls) as Hw.
      rewrite He in Hw. destruct Hw as [-> _]. lia.
    + intros _. simpl. rewrite iface_client_closed. eauto.
Qed.

End RetryFacts.

(** C5.  A refresh whose fetch meets BrokenPipeError tries again in a fresh
    session, at most three times: [Container._refresh] never calls
    GetContainer more than four times, the first attempt and three retries,
    and it always ends.  When every attempt meets a broken pipe, the three
    retries are all made and BrokenPipeError then reaches the caller. *)
Theorem refresh_retries_three_times_then_raises
    (E : env) (c : client) (id : string) :
  (forall fuel podman s,
     count (is_fetch id)
       (trace (snd (Container._refresh E c id fuel podman 1 s)))
     <= count (is_fetch id) (trace s) + 4) /\
  (forall fuel podman s,
     4 <= fuel ->
     fst (Container._refresh E c id fuel podman 1 s) <> Pending) /\
  (forall fuel podman s,
     4 <= fuel ->
     (forall tr h, reply E tr h (GetContainer id) = inl FBrokenPipe) ->
     (forall s', exists h s1, __enter__ E c s' = (Ret h, s1)) ->
     fst (Container._refresh E c id fuel podman 1 s) = Raise BrokenPipeError /\
     count (is_fetch id)
       (trace (snd (Container._refresh E c id fuel podman 1 s)))
     = count (is_fetch id) (trace s) + 4).
Proof.
  split; [|split].
  - intros fuel podman s. apply (refresh_fetch_bound E c id fuel podman 1 s).
  - intros fuel podman s Hf.
    apply (refresh_finishes E c id fuel podman 1); simpl; lia.
  - intros fuel podman s Hf Hbp Hacq.
    destruct (refresh_exhausts E c id Hbp Hacq fuel podman 1 s)
      as (s' & -> & Hc & _); [lia | simpl; lia |].
    split; [reflexivity | exact Hc].
Qed.

Lemma refresh_retries_three_times_then_raises_witness :
  fst (Container._refresh broken_pipe (LocalClient local_ctx) "c" 4 0 1
         init_state) = Raise BrokenPipeError /\
  count (is_fetch "c")
    (trace (snd (Container._refresh broken_pipe (LocalClient local_ctx) "c"
                   4 0 1 init_state)))
  = count (is_fetch "c") (trace init_state) + 4.
Proof.
  refine (proj2 (proj2 (refresh_retries_three_times_then_raises broken_pipe
            (LocalClient local_ctx) "c")) 4 0 init_state _ _ _).
  - lia.
  - intros tr h. reflexivity.
  - intros s'. eexists _, _. reflexivity.
Defined.

(** ** Entering through the Portal, one caller after the other or interleaved *)

Section InterleavingFacts.
Variable E : env.
Variable ctx : Context.


Lemma try_open_inv t s :
  _portal (snd (try_except (open E (RemoteClient ctx))
                  (fun e => Tunnel_close t ;;; raise e) s)) = _portal s /\
  count is_bore
    (trace (snd (try_except (open E (RemoteClient ctx))
                   (fun e => Tunnel_close t ;;; raise e) s)))
    = count is_bore (trace s).
Proof.
  unfold try_except.
  pose proof (open_portal E (RemoteClient ctx) s) as Hp.
  pose proof (open_count E is_bore (RemoteClient ctx) s eq_refl
                (fun _ _ => eq_refl) (fun _ _ => eq_refl)) as Hc.
  destruct (open E (RemoteClient ctx) s) as [[h|e|] s1]; simpl in *;
    split; assumption.
Qed.

(** A lone caller taking its four steps does what [__enter__] does. *)
Lemma run_alone_is_enter s :
  exists t,
    run E ctx (replicate 4 0) [AtGet] s =
      ([Done t (fst (__enter__ E (RemoteClient ctx) s))],
       snd (__enter__ E (RemoteClient ctx) s)).
Proof.
  unfold __enter__, bind, obtain_tunnel, bind, Portal_get. simpl.
  destruct (_portal s !! uri ctx) as [t|]; simpl.
  - cbv [bind Tunnel_close modify raise].
    destruct (try_except _ _ s) as [r s1]. simpl. eauto.
  - unfold Tunnel_bore. destruct (bore E (trace s)); simpl; [eauto|].
    cbv [bind Tunnel_close modify raise].
    match goal with
    | |- context [try_except ?m ?h ?s0] =>
      destruct (try_except m h s0) as [r s1]
    end. simpl. eauto.
Qed.





End InterleavingFacts.




(** * Further properties of the code *)

(** ** Sessions: what acquisition and release touch *)

Section AcquireFacts.
Variable E : env.

Lemma count_none p evs (Q : event -> Prop) :
  (forall e, Q e -> p e = false) -> Forall Q evs -> count p evs = 0.
Proof.
  intros Hq. induction 1 as [|e evs He _ IH]; [reflexivity|].
  simpl. now rewrite (Hq e He), IH.
Qed.

Lemma open_events c s :
  exists evs, trace (snd (open E c s)) = evs ++ trace s /\
              Forall acquire_event evs.
Proof.
  unfold open. destruct (connect E _ _).
  - exists [EvOpenFailed]. split; [reflexivity | repeat constructor].
  - destruct (open_iface E _ _).
    + eexists [_; _]. split; [reflexivity | repeat constructor].
    + eexists [_; _]. split; [reflexivity | repeat constructor].
Qed.

Lemma enter_events c s :
  exists evs, trace (snd (__enter__ E c s)) = evs ++ trace s /\
              Forall acquire_event evs.
Proof.
  destruct c as [ctx|ctx]; [apply open_events|].
  unfold __enter__, bind, obtain_tunnel, bind, Portal_get.
  assert (Hopen : forall t s0 pre,
    trace s0 = pre ++ trace s -> Forall acquire_event pre ->
    exists evs,
      trace (snd (try_except (open E (RemoteClient ctx))
               (fun e => Tunnel_close t ;;; raise e) s0)) = evs ++ trace s
      /\ Forall acquire_event evs).
  { intros t s0 pre Hpre Hnc.
    destruct (open_events (RemoteClient ctx) s0) as (evs & Hev & Hf).
    unfold try_except.
    destruct (open E (RemoteClient ctx) s0) as [[h|e|] s1]; simpl in *.
    - exists (evs ++ pre). rewrite Hev, Hpre, app_assoc. split; [reflexivity|].
      now apply Forall_app.
    - exists (EvTunnelClose t :: evs ++ pre).
      rewrite Hev, Hpre, app_assoc. split; [reflexivity|].
      constructor; [exact I | now apply Forall_app].
    - exists (evs ++ pre). rewrite Hev, Hpre, app_assoc. split; [reflexivity|].
      now apply Forall_app. }
  destruct (_portal s !! uri ctx) as [t|].
  - apply (Hopen t s []); [reflexivity | constructor].
  - unfold Tunnel_bore. destruct (bore E (trace s)).
    + exists [EvBoreFailed]. split; [reflexivity | repeat constructor].
    + apply (Hopen _ _ [EvBore (fresh s)]); [reflexivity | repeat constructor].
Qed.

Lemma open_fresh c s h s1 :
  open E c s = (Ret h, s1) -> fresh s <= h /\ h < fresh s1.
Proof.
  unfold open. destruct (connect E _ _); [discriminate|].
  destruct (open_iface E _ _); [discriminate|].
  intros [= <- <-]. simpl. lia.
Qed.

Lemma enter_fresh c s h s1 :
  __enter__ E c s = (Ret h, s1) -> fresh s <= h /\ h < fresh s1.
Proof.
  destruct c as [ctx|ctx]; [apply open_fresh|].
  unfold __enter__, bind, obtain_tunnel, bind, Portal_get.
  destruct (_portal s !! uri ctx) as [t|].
  - simpl. unfold try_except.
    destruct (open E (RemoteClient ctx) s) as [[h'|e|] s'] eqn:Ho;
      cbv [bind Tunnel_close modify raise]; try discriminate.
    intros [= <- <-]. eapply open_fresh, Ho.
  - unfold Tunnel_bore. destruct (bore E (trace s)); [discriminate|].
    simpl. unfold try_except.
    match goal with
    | |- context [open E (RemoteClient ctx) ?s0] =>
      destruct (open E (RemoteClient ctx) s0) as [[h'|e|] s'] eqn:Ho
    end; cbv [bind Tunnel_close modify raise]; try discriminate.
    intros [= <- <-]. apply open_fresh in Ho. simpl in Ho. lia.
Qed.

Lemma released_portal s h :
  _portal (log (EvIfaceClose h) (client_closed E s)) = _portal s.
Proof.
  unfold client_closed.
  destruct (_client s); [destruct (client_has_close E)|]; reflexivity.
Qed.


End AcquireFacts.

(** X1. Re-entering a session.  [__call__] hands out the client object
    itself and [open] overwrites its channel, so when a [with] statement on a
    client is nested inside another one on the same client, the two releases
    both close the inner channel: the inner channel is closed twice and the
    outer one is never closed. *)
Theorem nested_with_closes_inner_channel_twice
    (E : env) (c : client) (A : Type) (inner : nat -> M A)
    (s : state) (h1 : nat) (s1 : state) (h2 : nat) (s2 : state)
    (r : result A) (s3 : state) :
  __enter__ E c s = (Ret h1, s1) ->
  __enter__ E c s1 = (Ret h2, s2) ->
  inner h2 s2 = (r, s3) ->
  r <> Pending ->
  _iface s3 = Some h2 ->
  count (is_iface_close h1) (trace s3) = 0 ->
  count (is_iface_close h2) (trace s3) = 0 ->
  h1 <> h2 /\
  count (is_iface_close h2)
    (trace (snd (with_ E c (fun _ => with_ E c inner) s))) = 2 /\
  count (is_iface_close h1)
    (trace (snd (with_ E c (fun _ => with_ E c inner) s))) = 0.
Proof.
  intros He1 He2 Hin Hr Hi H1 H2.
  assert (Hne : h1 <> h2).
  { apply enter_fresh in He1. apply enter_fresh in He2. lia. }
  set (s4 := log (EvIfaceClose h2) (client_closed E s3)).
  assert (Hinner : exists r', with_ E c inner s1 = (r', s4) /\ r' <> Pending).
  { rewrite (with_spec E c inner s1 h2 s2 r s3 h2 He2 Hin Hi).
    destruct r; [eexists; split; [reflexivity|discriminate]
                |eexists; split; [reflexivity|discriminate]
                |congruence]. }
  destruct Hinner as (r' & Hw & Hr').
  assert (Hi4 : _iface s4 = Some h2).
  { subst s4. simpl. now rewrite iface_client_closed. }
  rewrite (with_spec E c (fun _ => with_ E c inner) s h1 s1 r' s4 h2 He1 Hw Hi4).
  assert (Hc : forall h,
    count (is_iface_close h)
      (trace (log (EvIfaceClose h2) (client_closed E s4)))
    = (if Nat.eqb h h2 then 2 else 0) + count (is_iface_close h) (trace s3)).
  { intros h. subst s4. simpl.
    rewrite !count_client_closed by reflexivity. simpl.
    rewrite count_client_closed by reflexivity.
    destruct (Nat.eqb h h2); lia. }
  split; [exact Hne|].
  destruct r'; try congruence; cbn [snd]; rewrite !Hc, Nat.eqb_refl, H1, H2;
    (split; [reflexivity|]);
    destruct (Nat.eqb_spec h1 h2); [contradiction | reflexivity
                                   | contradiction | reflexivity].
Qed.

Lemma nested_with_closes_inner_channel_twice_witness :
  1 <> 3 /\
  count (is_iface_close 3)
    (trace (snd (with_ quiet (LocalClient local_ctx)
                   (fun _ => with_ quiet (LocalClient local_ctx)
                               (fun podman =>
                                  call quiet podman (ContainerExists "c")))
                   init_state))) = 2 /\
  count (is_iface_close 1)
    (trace (snd (with_ quiet (LocalClient local_ctx)
                   (fun _ => with_ quiet (LocalClient local_ctx)
                               (fun podman =>
                                  call quiet podman (ContainerExists "c")))
                   init_state))) = 0.
Proof.
  eapply (nested_with_closes_inner_channel_twice quiet (LocalClient local_ctx)
            _ (fun podman => call quiet podman (ContainerExists "c"))
            init_state 1 _ 3).
  - reflexivity.
  - reflexivity.
  - reflexivity.
  - discriminate.
  - reflexivity.
  - reflexivity.
  - reflexivity.
Defined.

(** X2. Failed acquisition.  When [__enter__] raises, the [with] statement
    raises the same exception from the same state: the enclosed body is not
    run, no daemon call is made and no channel is closed. *)
Theorem failed_acquisition_runs_nothing
    (E : env) (c : client) (A : Type) (body : nat -> M A)
    (s : state) (e : exn) (s1 : state) :
  __enter__ E c s = (Raise e, s1) ->
  with_ E c body s = (Raise e, s1) /\
  calls (trace s1) = calls (trace s) /\
  count is_any_iface_close (trace s1) = count is_any_iface_close (trace s).
Proof.
  intros He. split; [unfold with_; now rewrite He|].
  destruct (enter_silent E c s) as (evs & Hev & Hnc).
  destruct (enter_events E c s) as (evs' & Hev' & Hac).
  rewrite He in Hev, Hev'. simpl in Hev, Hev'. split.
  - now rewrite Hev, calls_skip.
  - rewrite Hev', count_app.
    rewrite (count_none is_any_iface_close evs' acquire_event); [reflexivity| |assumption].
    intros []; simpl; intros; try reflexivity; contradiction.
Qed.

Lemma failed_acquisition_runs_nothing_witness :
  with_ unreachable (LocalClient local_ctx)
        (fun podman => call unreachable podman (ContainerExists "c"))
        init_state
  = (Raise (ConnectionError "refused"), log EvOpenFailed init_state).
Proof.
  apply (failed_acquisition_runs_nothing unreachable (LocalClient local_ctx) _
           (fun podman => call unreachable podman (ContainerExists "c"))
           init_state (ConnectionError "refused") (log EvOpenFailed init_state)).
  reflexivity.
Defined.

(** ** Remote sessions and the Portal *)

Section PortalFacts.
Variable E : env.



End PortalFacts.






(** X5. A local session never uses the Portal.  Around any daemon call,
    whatever its outcome, a [with] statement on a local client leaves the
    Portal unchanged, bores no tunnel and closes none. *)
Theorem local_session_never_uses_portal
    (E : env) (ctx : Context) (m : method) (s : state) :
  _portal (snd (with_ E (LocalClient ctx) (fun podman => call E podman m) s))
    = _portal s /\
  count is_bore
    (trace (snd (with_ E (LocalClient ctx) (fun podman => call E podman m) s)))
    = count is_bore (trace s) /\
  count is_any_tunnel_close
    (trace (snd (with_ E (LocalClient ctx) (fun podman => call E podman m) s)))
    = count is_any_tunnel_close (trace s).
Proof.
  pose proof (open_portal E (LocalClient ctx) s) as Hp.
  pose proof (open_count E is_bore (LocalClient ctx) s eq_refl
                (fun _ _ => eq_refl) (fun _ _ => eq_refl)) as Hb.
  pose proof (open_count E is_any_tunnel_close (LocalClient ctx) s eq_refl
                (fun _ _ => eq_refl) (fun _ _ => eq_refl)) as Ht.
  destruct (open E (LocalClient ctx) s) as [[h|e|] s1] eqn:He;
    simpl in Hp, Hb, Ht.
  - destruct (call_spec E h m s1) as (r & Hc & Hr & _).
    set (s2 := set_now (now s1 + Z.of_N (latency E (trace s1)))%Z
                       (log (EvCall h m) s1)) in *.
    assert (Hi : _iface s2 = Some h)
      by exact (enter_iface E (LocalClient ctx) s h s1 He).
    rewrite (with_spec E (LocalClient ctx) _ s h s1 r s2 h He Hc Hi).
    assert (Hfin :
      _portal (log (EvIfaceClose h) (client_closed E s2)) = _portal s /\
      count is_bore (trace (log (EvIfaceClose h) (client_closed E s2)))
        = count is_bore (trace s) /\
      count is_any_tunnel_close
        (trace (log (EvIfaceClose h) (client_closed E s2)))
        = count is_any_tunnel_close (trace s)).
    { rewrite released_portal. simpl.
      rewrite !count_client_closed by reflexivity. subst s2. simpl.
      repeat split; assumption. }
    destruct r; [exact Hfin | exact Hfin | congruence].
  - unfold with_. cbn [__enter__]. rewrite He. simpl. repeat split; assumption.
  - unfold with_. cbn [__enter__]. rewrite He. simpl. repeat split; assumption.
Qed.

(** ** Container._refresh *)

Section RefreshFacts.
Variable E : env.
Variable c : client.
Variable id : string.




End RefreshFacts.





(** X8. No retry for other failures.  A fault of the fetch other than a
    broken pipe leaves [_refresh] at once, unchanged, after that single call
    and with no new session; and a reply without the field [container]
    raises KeyError and leaves [data] as it was. *)
Theorem refresh_retries_only_broken_pipe
    (E : env) (c : client) (id : string) (fuel podman tries : nat)
    (s : state) :
  (forall f, reply E (trace s) podman (GetContainer id) = inl f ->
     f <> FBrokenPipe ->
     Container._refresh E c id (S fuel) podman tries s =
       (Raise (raise_of f),
        set_now (now s + Z.of_N (latency E (trace s)))%Z
                (log (EvCall podman (GetContainer id)) s))) /\
  (forall r, reply E (trace s) podman (GetContainer id) = inr r ->
     r !! "container" = None ->
     fst (Container._refresh E c id (S fuel) podman tries s)
       = Raise (KeyError "container") /\
     data (snd (Container._refresh E c id (S fuel) podman tries s)) = data s).
Proof.
  split.
  - intros f Hr Hf. simpl. unfold call. rewrite Hr.
    destruct f; try reflexivity. contradiction.
  - intros r Hr Hc. simpl. unfold call. rewrite Hr. unfold bind, getitem.
    rewrite Hc. split; reflexivity.
Qed.

Lemma refresh_retries_only_broken_pipe_witness :
  Container._refresh faulty (LocalClient local_ctx) "c" 1 0 1 init_state =
    (Raise (VarlinkError (MkVarlinkError "io.podman.ContainerNotFound" "c")),
     set_now 0%Z (log (EvCall 0 (GetContainer "c")) init_state)).
Proof.
  apply (proj1 (refresh_retries_only_broken_pipe faulty
                  (LocalClient local_ctx) "c" 0 0 1 init_state)
           (FVarlink (MkVarlinkError "io.podman.ContainerNotFound" "c")));
    [reflexivity | discriminate].
Defined.

(** ** kill: the paths that do not wait *)

Section KillFacts.
Variable E : env.

Lemma enter_keeps c s :
  calls (trace (snd (__enter__ E c s))) = calls (trace s) /\
  count is_sleep (trace (snd (__enter__ E c s))) = count is_sleep (trace s).
Proof.
  destruct (enter_silent E c s) as (evs & Hev & Hnc).
  destruct (enter_events E c s) as (evs' & Hev' & Hac).
  split.
  - now rewrite Hev, calls_skip.
  - rewrite Hev', count_app.
    rewrite (count_none is_sleep evs' acquire_event); [reflexivity| |assumption].
    intros []; simpl; intros; try reflexivity; contradiction.
Qed.

Lemma with_finished {A} c (body : nat -> M A) s h s1 r s2 h2 :
  __enter__ E c s = (Ret h, s1) ->
  body h s1 = (r, s2) ->
  r <> Pending ->
  _iface s2 = Some h2 ->
  fst (with_ E c body s)
    = match r with Raise e => Raise (translated E e) | _ => r end /\
  calls (trace (snd (with_ E c body s))) = calls (trace s2) /\
  count is_sleep (trace (snd (with_ E c body s))) = count is_sleep (trace s2).
Proof.
  intros He Hb Hr Hi.
  rewrite (with_spec E c body s h s1 r s2 h2 He Hb Hi).
  destruct (released_trace E s2 h2) as (evs & Hev & Hnc).
  assert (Hs : count is_sleep (trace (log (EvIfaceClose h2) (client_closed E s2)))
               = count is_sleep (trace s2)).
  { simpl. now rewrite count_client_closed by reflexivity. }
  destruct r; try congruence; cbn [fst snd];
    (split; [reflexivity|]); (split; [now rewrite Hev, calls_skip | exact Hs]).
Qed.

End KillFacts.



(** X10. A refused kill is not followed by polling.  When the daemon
    answers the kill call with a fault, [Container.kill] makes no fetch: that
    call is the only one, the channel is released, and the fault leaves the
    method, a varlink error as the typed error of [error_factory]. *)
Theorem kill_fault_skips_polling
    (E : env) (c : client) (id : string) (sig wait : Z) (fuel : nat)
    (s : state) (h : nat) (s1 : state) (f : fault) :
  __enter__ E c s = (Ret h, s1) ->
  reply E (trace s1) h (KillContainer id sig) = inl f ->
  fst (Container.kill E c id fuel sig wait s)
    = Raise (translated E (raise_of f)) /\
  calls (trace (snd (Container.kill E c id fuel sig wait s)))
    = (h, KillContainer id sig) :: calls (trace s).
Proof.
  intros He Hk.
  set (sk := set_now (now s1 + Z.of_N (latency E (trace s1)))%Z
                     (log (EvCall h (KillContainer id sig)) s1)).
  assert (Hbody :
    (call E h (KillContainer id sig) ;;;
     t <- time_time ;;
     Container.kill_loop E c id fuel h wait (Plus t wait)) s1
    = (Raise (raise_of f), sk)).
  { unfold bind at 1, call. rewrite Hk. reflexivity. }
  assert (Hi : _iface sk = Some h) by exact (enter_iface E c s h s1 He).
  destruct (with_finished E c
              (fun podman =>
                 call E podman (KillContainer id sig) ;;;
                 t <- time_time ;;
                 Container.kill_loop E c id fuel podman wait (Plus t wait))
              s h s1 (Raise (raise_of f)) sk h He Hbody
              ltac:(discriminate) Hi) as (Hf & Hcalls & _).
  unfold Container.kill. rewrite Hf, Hcalls.
  destruct (enter_keeps E c s) as [Hc1 _]. rewrite He in Hc1. simpl in Hc1.
  subst sk. simpl. rewrite Hc1. split; reflexivity.
Qed.

Lemma kill_fault_skips_polling_witness :
  fst (Container.kill faulty (LocalClient local_ctx) "c" 7 15 25000 init_state)
    = Raise (PodmanError
               (MkTypedError ContainerNotFound "c"
                             "io.podman.ContainerNotFound")).
Proof.
  eapply (kill_fault_skips_polling faulty (LocalClient local_ctx) "c" 15 25000
            7 init_state 1 _
            (FVarlink (MkVarlinkError "io.podman.ContainerNotFound" "c"))).
  - reflexivity.
  - reflexivity.
Defined.

(** X11. A pod refresh is not retried.  When the fetch of [Pod.kill]'s first
    poll meets a broken pipe, BrokenPipeError leaves [Pod.kill] after that
    single fetch: unlike [Container._refresh], [Pod._refresh] has no retry. *)
Theorem pod_kill_does_not_retry
    (E : env) (c : client) (ident : string) (signal_ wait : Z) (fuel : nat)
    (s : state) (h : nat) (s1 : state) (rk : gmap string pyobj) :
  __enter__ E c s = (Ret h, s1) ->
  reply E (trace s1) h (KillPod ident signal_) = inr rk ->
  reply E (EvCall h (KillPod ident signal_) :: trace s1) h (GetPod ident)
    = inl FBrokenPipe ->
  fst (Pod.kill E c ident (S fuel) signal_ wait s) = Raise BrokenPipeError /\
  calls (trace (snd (Pod.kill E c ident (S fuel) signal_ wait s)))
    = (h, GetPod ident) :: (h, KillPod ident signal_) :: calls (trace s).
Proof.
  intros He Hk Hp.
  set (sk := set_now (now s1 + Z.of_N (latency E (trace s1)))%Z
                     (log (EvCall h (KillPod ident signal_)) s1)).
  set (sp := set_now (now sk + Z.of_N (latency E (trace sk)))%Z
                     (log (EvCall h (GetPod ident)) sk)).
  assert (Hbody :
    (call E h (KillPod ident signal_) ;;;
     t <- time_time ;;
     Pod.kill_loop E ident (S fuel) h wait (Plus t wait)) s1
    = (Raise BrokenPipeError, sp)).
  { unfold bind at 1, call. rewrite Hk. fold sk.
    unfold bind at 1, time_time. cbn [Pod.kill_loop].
    unfold bind at 1, Pod._refresh, bind at 1, call. simpl trace.
    rewrite Hp. reflexivity. }
  assert (Hi : _iface sp = Some h) by exact (enter_iface E c s h s1 He).
  pose proof (with_spec E c
                (fun podman =>
                   call E podman (KillPod ident signal_) ;;;
                   t <- time_time ;;
                   Pod.kill_loop E ident (S fuel) podman wait (Plus t wait))
                s h s1 (Raise BrokenPipeError) sp h He Hbody Hi) as Hw.
  cbv beta iota in Hw. cbn [translated] in Hw.
  assert (Hkill : Pod.kill E c ident (S fuel) signal_ wait s
                  = (Raise BrokenPipeError,
                     log (EvIfaceClose h) (client_closed E sp))).
  { unfold Pod.kill. unfold bind at 1. now rewrite Hw. }
  rewrite Hkill. cbn [fst snd]. split; [reflexivity|].
  destruct (released_trace E sp h) as (evs & -> & Hnc).
  rewrite calls_skip by assumption.
  destruct (enter_keeps E c s) as [Hc1 _]. rewrite He in Hc1. simpl in Hc1.
  subst sp sk. simpl. now rewrite Hc1.
Qed.

Lemma pod_kill_does_not_retry_witness :
  fst (Pod.kill pod_pipe (LocalClient local_ctx) "p" 3 15 0 init_state)
    = Raise BrokenPipeError.
Proof.
  eapply (pod_kill_does_not_retry pod_pipe (LocalClient local_ctx) "p" 15 0 2
            init_state 1 _ ∅).
  - reflexivity.
  - reflexivity.
  - reflexivity.
Defined.

(** ** Container.commit and Containers.exists *)

Section CommitFacts.
Variable E : env.

Lemma check_labels_ok l s :
  Forall (fun c => malformed_label c = false) l ->
  Container.check_labels l s = (Ret tt, s).
Proof.
  induction 1 as [|c l Hc _ IH]; [reflexivity|].
  simpl. unfold malformed_label in Hc. now rewrite Hc.
Qed.

Lemma check_labels_bad l s :
  Exists (fun c => malformed_label c = true) l ->
  exists c, c ∈ l /\ malformed_label c = true /\
    Container.check_labels l s =
      (Raise (ValueError
         ("LABEL should have the format: LABEL=label=value, not " ++ c)%string),
       s).
Proof.
  induction l as [|c l IH]; intros Hex; [inversion Hex|].
  simpl. destruct (malformed_label c) eqn:Hc.
  - exists c. pose proof Hc as Hc'. unfold malformed_label in Hc'.
    rewrite Hc'. repeat split; [apply list_elem_of_here | exact Hc].
  - assert (Hex' : Exists (fun c => malformed_label c = true) l).
    { inversion Hex; subst; [congruence | assumption]. }
    destruct (IH Hex') as (c' & Hin & Hm & Heq). exists c'.
    pose proof Hc as Hc'. unfold malformed_label in Hc'. rewrite Hc'.
    repeat split; [now apply list_elem_of_further | assumption | exact Heq].
Qed.

Lemma change_list kwargs l :
  kwargs !! "change" = Some (PList l) ->
  py_or (kwargs_get kwargs "change") (PList []) = PList l.
Proof.
  intros H. unfold kwargs_get, py_or. rewrite H. simpl.
  destruct l; reflexivity.
Qed.

End CommitFacts.

(** X12. Labels are checked before anything is sent.  When the [change]
    list of [Container.commit] holds an entry that starts with LABEL= and has
    fewer than two '=' signs, commit raises ValueError naming such an entry
    and leaves everything as it was: no session is opened and no daemon call
    is made. *)
Theorem commit_rejects_malformed_label
    (E : env) (c : client) (id image_name : string)
    (kwargs : gmap string pyval) (l : list string) (s : state) :
  kwargs !! "change" = Some (PList l) ->
  Exists (fun x => malformed_label x = true) l ->
  exists x,
    x ∈ l /\ malformed_label x = true /\
    Container.commit E c id image_name kwargs s =
      (Raise (ValueError
         ("LABEL should have the format: LABEL=label=value, not " ++ x)%string),
       s).
Proof.
  intros Hk Hex.
  destruct (check_labels_bad l s Hex) as (x & Hin & Hm & Heq).
  exists x. repeat split; [assumption | assumption |].
  unfold Container.commit. rewrite (change_list kwargs l Hk).
  unfold bind at 1. cbn [Container.iter_strings ret].
  unfold bind at 1. now rewrite Heq.
Qed.

Lemma commit_rejects_malformed_label_witness :
  exists x,
    x ∈ ["CMD=/bin/sh"; "LABEL=unittest"] /\ malformed_label x = true /\
    Container.commit quiet (LocalClient local_ctx) "c" "img"
      {[ "change" := PList ["CMD=/bin/sh"; "LABEL=unittest"] ]} init_state =
      (Raise (ValueError
         ("LABEL should have the format: LABEL=label=value, not " ++ x)%string),
       init_state).
Proof.
  apply (commit_rejects_malformed_label quiet (LocalClient local_ctx) "c" "img"
           {[ "change" := PList ["CMD=/bin/sh"; "LABEL=unittest"] ]}
           ["CMD=/bin/sh"; "LABEL=unittest"] init_state).
  - reflexivity.
  - apply Exists_cons_tl, Exists_cons_hd. reflexivity.
Defined.

(** X13. A commit that goes through.  With a [change] list free of
    malformed labels, the session acquired and a reply that carries
    [reply.id], [Container.commit] makes the single call
    Commit(id, image_name, change, author, message, pause) and returns that
    id; [author] is the caller's, or the current user when it is absent or
    empty, and [message] is the caller's or the empty string. *)
Theorem commit_sends_defaults_and_returns_id
    (E : env) (c : client) (id image_name : string)
    (kwargs : gmap string pyval) (l : list string) (s : state)
    (h : nat) (s1 : state) (results : gmap string pyobj)
    (d : gmap string pyval) (v : pyval) :
  kwargs !! "change" = Some (PList l) ->
  Forall (fun x => malformed_label x = false) l ->
  __enter__ E c s = (Ret h, s1) ->
  reply E (trace s1) h
    (Commit (MkCommitArgs id image_name (PList l)
               (py_or (kwargs_get kwargs "author") (PStr (getuser E)))
               (py_or (kwargs_get kwargs "message") (PStr ""))
               (py_or (kwargs_get kwargs "pause") (PBool true))))
    = inr results ->
  results !! "reply" = Some (Dict d) ->
  d !! "id" = Some v ->
  fst (Container.commit E c id image_name kwargs s) = Ret v /\
  calls (trace (snd (Container.commit E c id image_name kwargs s)))
    = (h, Commit (MkCommitArgs id image_name (PList l)
                    (py_or (kwargs_get kwargs "author") (PStr (getuser E)))
                    (py_or (kwargs_get kwargs "message") (PStr ""))
                    (py_or (kwargs_get kwargs "pause") (PBool true))))
      :: calls (trace s).
Proof.
  intros Hk Hok He Hr Hres Hid.
  set (m := Commit _) in *.
  set (sc := set_now (now s1 + Z.of_N (latency E (trace s1)))%Z
                     (log (EvCall h m) s1)).
  assert (Hbody : (fun podman => call E podman m) h s1 = (Ret results, sc)).
  { unfold call. now rewrite Hr. }
  assert (Hi : _iface sc = Some h) by exact (enter_iface E c s h s1 He).
  pose proof (with_spec E c (fun podman => call E podman m) s h s1
                (Ret results) sc h He Hbody Hi) as Hw.
  cbv beta iota in Hw.
  assert (Heq : Container.commit E c id image_name kwargs s
                = (Ret v, log (EvIfaceClose h) (client_closed E sc))).
  { unfold Container.commit. rewrite (change_list kwargs l Hk).
    unfold bind at 1. cbn [Container.iter_strings ret].
    unfold bind at 1. rewrite (check_labels_ok l s Hok).
    unfold bind at 1. fold m. rewrite Hw.
    unfold bind, getitem. rewrite Hres. simpl. now rewrite Hid. }
  rewrite Heq. cbn [fst snd]. split; [reflexivity|].
  destruct (released_trace E sc h) as (evs & -> & Hnc).
  rewrite calls_skip by assumption.
  destruct (enter_keeps E c s) as [Hc1 _]. rewrite He in Hc1. simpl in Hc1.
  subst sc. simpl. now rewrite Hc1.
Qed.

Lemma commit_sends_defaults_and_returns_id_witness :
  fst (Container.commit committing (LocalClient local_ctx) "c" "img"
         {[ "change" := PList ["LABEL=a=b"] ]} init_state)
    = Ret (PStr "img1").
Proof.
  eapply (commit_sends_defaults_and_returns_id committing
            (LocalClient local_ctx) "c" "img"
            {[ "change" := PList ["LABEL=a=b"] ]} ["LABEL=a=b"] init_state 1 _
            {[ "reply" := Dict {[ "id" := PStr "img1" ]} ]}
            {[ "id" := PStr "img1" ]} (PStr "img1")).
  - reflexivity.
  - repeat constructor.
  - reflexivity.
  - reflexivity.
  - reflexivity.
  - reflexivity.
Defined.

(** X14. [Containers.exists] answers only on a well-formed reply.  With the
    session acquired, a fault of the daemon leaves [exists] as an exception,
    a varlink error as the typed error of [error_factory], and a reply
    without the field [exists] raises KeyError: in neither case is a boolean
    returned. *)
Theorem exists_raises_without_answer
    (E : env) (c : client) (id_ : string) (s : state) (h : nat) (s1 : state) :
  __enter__ E c s = (Ret h, s1) ->
  (forall f, reply E (trace s1) h (ContainerExists id_) = inl f ->
     fst (Containers.exists_ E c id_ s) = Raise (translated E (raise_of f))) /\
  (forall r, reply E (trace s1) h (ContainerExists id_) = inr r ->
     r !! "exists" = None ->
     fst (Containers.exists_ E c id_ s) = Raise (KeyError "exists")).
Proof.
  intros He.
  set (sc := set_now (now s1 + Z.of_N (latency E (trace s1)))%Z
                     (log (EvCall h (ContainerExists id_)) s1)).
  assert (Hi : _iface sc = Some h) by exact (enter_iface E c s h s1 He).
  split.
  - intros f Hr.
    assert (Hb : (exist <- call E h (ContainerExists id_) ;;
                  o0 <- getitem exist "exists" ;;
                  if py_eq_int o0 0 then ret (Some true) else ret None) s1
                 = (Raise (raise_of f), sc)).
    { unfold bind, call. now rewrite Hr. }
    unfold Containers.exists_. unfold bind at 1.
    now rewrite (with_spec E c _ s h s1 _ sc h He Hb Hi).
  - intros r Hr Hn.
    assert (Hb : (exist <- call E h (ContainerExists id_) ;;
                  o0 <- getitem exist "exists" ;;
                  if py_eq_int o0 0 then ret (Some true) else ret None) s1
                 = (Raise (KeyError "exists"), sc)).
    { unfold bind, call. rewrite Hr. unfold getitem. now rewrite Hn. }
    unfold Containers.exists_. unfold bind at 1.
    now rewrite (with_spec E c _ s h s1 _ sc h He Hb Hi).
Qed.

Lemma exists_raises_without_answer_witness :
  fst (Containers.exists_ quiet (LocalClient local_ctx) "c" init_state)
    = Raise (KeyError "exists").
Proof.
  refine (proj2 (exists_raises_without_answer quiet (LocalClient local_ctx)
                   "c" init_state 1 _ _) ∅ _ _); reflexivity.
Defined.

(** ** BaseClient.factory: the order of its checks *)

(** X15. [BaseClient.factory] works in a fixed order.  The logging set-up
    comes first: what it raises for PODMAN_LOG_LEVEL is raised whatever the
    arguments.  When it raises nothing, a missing uri is reported first, then
    a missing interface, then unknown keywords (their names joined in the
    order in which the set is iterated), and only then is the uri parsed: an
    unknown keyword is reported even for a uri that cannot be parsed, and an
    exception of the parse leaves [factory] unchanged. *)
Theorem factory_check_order
    (urlparse : pyval -> exn + ParseResult)
    (PODMAN_LOG_LEVEL : option string) (basicConfig : string -> option exn)
    (set_iter : gset string -> list string)
    (uri interface : option string) (kwargs : gmap string pyval) :
  (forall e, log_head PODMAN_LOG_LEVEL basicConfig = Some e ->
   factory urlparse PODMAN_LOG_LEVEL basicConfig set_iter uri interface kwargs
     = inl e) /\
  (log_head PODMAN_LOG_LEVEL basicConfig = None -> uri = None ->
   factory urlparse PODMAN_LOG_LEVEL basicConfig set_iter uri interface kwargs
     = inl (ValueError "uri is required and cannot be None")) /\
  (log_head PODMAN_LOG_LEVEL basicConfig = None ->
   uri <> None -> interface = None ->
   factory urlparse PODMAN_LOG_LEVEL basicConfig set_iter uri interface kwargs
     = inl (ValueError "interface is required and cannot be None")) /\
  (log_head PODMAN_LOG_LEVEL basicConfig = None ->
   uri <> None -> interface <> None -> ~ dom kwargs ⊆ supported ->
   factory urlparse PODMAN_LOG_LEVEL basicConfig set_iter uri interface kwargs
     = inl (ValueError ("Unknown keyword arguments: "
                          ++ join ", " (set_iter (dom kwargs ∖ supported)))
                       %string)) /\
  (forall u e, log_head PODMAN_LOG_LEVEL basicConfig = None ->
     uri = Some u -> interface <> None ->
     dom kwargs ⊆ supported -> urlparse (PStr u) = inl e ->
     factory urlparse PODMAN_LOG_LEVEL basicConfig set_iter uri interface
       kwargs = inl e).
Proof.
  assert (Hdom : bool_decide (dom kwargs ∖ supported = ∅) = true <->
                 dom kwargs ⊆ supported).
  { rewrite bool_decide_eq_true. apply diff_empty_subseteq. }
  unfold factory. split; [|split; [|split; [|split]]].
  - intros e ->. reflexivity.
  - intros -> ->. reflexivity.
  - intros -> Hu ->. destruct uri; [reflexivity | contradiction].
  - intros -> Hu Hi Hk. destruct uri; [|contradiction].
    destruct interface; [|contradiction].
    destruct (bool_decide (dom kwargs ∖ supported = ∅)); [|reflexivity].
    exfalso. apply Hk, Hdom. reflexivity.
  - intros u e -> -> Hi Hk Hp. destruct interface; [|contradiction].
    apply Hdom in Hk. rewrite Hk. simpl. now rewrite Hp.
Qed.

Lemma factory_check_order_witness :
  factory sample_urlparse None (fun _ => None) elements
          (Some "not a uri") (Some "io.podman") {[ "timeout" := PInt 3 ]}
    = inl (ValueError ("Unknown keyword arguments: "
                         ++ join ", "
                              (elements (dom ({[ "timeout" := PInt 3 ]}
                                                : gmap string pyval)
                                           ∖ supported)))%string).
Proof.
  refine (proj1 (proj2 (proj2 (proj2 (factory_check_order sample_urlparse
            None (fun _ => None) elements
            (Some "not a uri") (Some "io.podman") {[ "timeout" := PInt 3 ]}))))
            _ _ _ _).
  - reflexivity.
  - discriminate.
  - discriminate.
  - intros Hsub.
    assert (Hin : "timeout" ∈ dom ({[ "timeout" := PInt 3 ]}
                                     : gmap string pyval)).
    { apply elem_of_dom. eexists. apply lookup_singleton_eq. }
    apply Hsub in Hin. unfold supported in Hin.
    rewrite !elem_of_union, !elem_of_singleton in Hin.
    repeat destruct Hin as [Hin|Hin]; discriminate.
Defined.

(** ** Interleaved callers: a bound on the tunnels *)

Section BoundFacts.
Variable E : env.
Variable ctx : Context.

Lemma step_bound p s :
  count is_bore (trace (snd (step E ctx p s))) + waiting (fst (step E ctx p s))
  <= count is_bore (trace s) + waiting p.
Proof.
  destruct p as [| |t|t|t r]; cbn [step].
  - unfold Portal_get. destruct (_portal s !! uri ctx); simpl; lia.
  - unfold Tunnel_bore. destruct (bore E (trace s)); simpl; lia.
  - simpl. lia.
  - destruct (try_open_inv E ctx t s) as [_ Hc].
    destruct (try_except _ _ s) as [r s1]. simpl in *. lia.
  - simpl. lia.
Qed.

Lemma total_waiting_insert ths : forall i p p',
  ths !! i = Some p ->
  total_waiting (<[i := p']> ths) + waiting p = total_waiting ths + waiting p'.
Proof.
  induction ths as [|q ths IH]; intros i p p' Hi; [discriminate|].
  destruct i as [|i]; simpl in *.
  - injection Hi as ->. lia.
  - specialize (IH i p p' Hi). lia.
Qed.

Lemma total_waiting_length ths : total_waiting ths <= length ths.
Proof.
  induction ths as [|p ths IH]; simpl; [lia|]. destruct p; simpl; lia.
Qed.

Lemma run_bound sched : forall ths s,
  count is_bore (trace (snd (run E ctx sched ths s)))
    + total_waiting (fst (run E ctx sched ths s))
  <= count is_bore (trace s) + total_waiting ths.
Proof.
  induction sched as [|i sched IH]; intros ths s; [simpl; lia|].
  simpl. destruct (ths !! i) as [p|] eqn:Hi; [|apply IH].
  pose proof (step_bound p s) as Hs.
  destruct (step E ctx p s) as [p' s']. simpl in Hs.
  specialize (IH (<[i := p']> ths) s').
  pose proof (total_waiting_insert ths i p p' Hi). lia.
Qed.

End BoundFacts.

(** X16. However the statements of several callers of
    [RemoteClient.__enter__] interleave, no more tunnels are bored than
    there are callers: each caller bores at most once. *)
Theorem interleaved_enter_bores_at_most_once_each
    (E : env) (ctx : Context) (sched : list nat) (ths : list pc) (s : state) :
  count is_bore (trace (snd (run E ctx sched ths s)))
  <= count is_bore (trace s) + length ths.
Proof.
  pose proof (run_bound E ctx sched ths s).
  pose proof (total_waiting_length ths). lia.
Qed.

(** ** Image._split_token *)

Section SplitFacts.

Lemma append_cons a x y : (String a x ++ y)%string = String a (x ++ y)%string.
Proof. reflexivity. Qed.

Lemma append_nil y : ("" ++ y)%string = y.
Proof. reflexivity. Qed.

Lemma prefix_inv sep : forall s,
  String.prefix sep s = true ->
  s = (sep ++ Image.drop (String.length sep) s)%string.
Proof.
  induction sep as [|a sep IH]; intros s H; [reflexivity|].
  destruct s as [|b s]; [discriminate|]. simpl in H.
  destruct (ascii_dec a b) as [->|]; [|discriminate].
  rewrite append_cons. cbn [String.length Image.drop]. f_equal. now apply IH.
Qed.

Lemma prefix_app sep r : String.prefix sep (sep ++ r)%string = true.
Proof.
  induction sep as [|a sep IH]; [rewrite append_nil; now destruct r|].
  rewrite append_cons. simpl.
  destruct (ascii_dec a a); [exact IH | contradiction].
Qed.

Lemma split1_sound sep : forall s k v,
  Image.split1 sep s = Some (k, v) -> s = (k ++ sep ++ v)%string.
Proof.
  induction s as [|a s IH]; intros k v; cbn [Image.split1].
  - destruct (String.prefix sep "") eqn:Hp; [|discriminate].
    intros [= <- <-]. rewrite append_nil. now apply prefix_inv.
  - destruct (String.prefix sep (String a s)) eqn:Hp.
    + intros [= <- <-]. rewrite append_nil. now apply prefix_inv.
    + destruct (Image.split1 sep s) as [[k0 v0]|]; [|discriminate].
      intros [= <- <-]. rewrite append_cons. f_equal. now apply IH.
Qed.

Lemma split1_leftmost sep : forall s k v,
  Image.split1 sep s = Some (k, v) ->
  forall k' v', s = (k' ++ sep ++ v')%string ->
    String.length k <= String.length k'.
Proof.
  induction s as [|a s IH]; intros k v; cbn [Image.split1].
  - destruct (String.prefix sep "") eqn:Hp; [|discriminate].
    intros [= <- <-] k' v' _. simpl. lia.
  - destruct (String.prefix sep (String a s)) eqn:Hp.
    + intros [= <- <-] k' v' _. simpl. lia.
    + destruct (Image.split1 sep s) as [[k0 v0]|] eqn:Hs; [|discriminate].
      intros [= <- <-] k' v' Heq. destruct k' as [|b k'].
      * rewrite append_nil in Heq. rewrite Heq, prefix_app in Hp.
        discriminate.
      * rewrite append_cons in Heq. injection Heq as _ Heq.
        cbn [String.length].
        specialize (IH k0 v0 eq_refl k' v' Heq). lia.
Qed.

Lemma split1_complete sep : forall s,
  Image.split1 sep s = None ->
  forall a b, s <> (a ++ sep ++ b)%string.
Proof.
  induction s as [|x s IH]; cbn [Image.split1].
  - destruct (String.prefix sep "") eqn:Hp; [discriminate|].
    intros _ a b Heq. destruct a.
    + rewrite append_nil in Heq. rewrite Heq, prefix_app in Hp. discriminate.
    + rewrite append_cons in Heq. discriminate.
  - destruct (String.prefix sep (String x s)) eqn:Hp; [discriminate|].
    destruct (Image.split1 sep s) as [[k0 v0]|] eqn:Hs; [discriminate|].
    intros _ a b Heq. destruct a as [|y a].
    + rewrite append_nil in Heq. rewrite Heq, prefix_app in Hp. discriminate.
    + rewrite append_cons in Heq. injection Heq as _ Heq.
      exact (IH eq_refl a b Heq).
Qed.

Lemma collect_entries sep : forall vs acc m,
  Image.collect sep vs acc = inr m ->
  (forall k v, m !! k = Some v ->
     acc !! k = Some v \/
     exists v0, v0 ∈ vs /\ Image.split1 sep v0 = Some (k, v)) /\
  (forall k, is_Some (acc !! k) -> is_Some (m !! k)) /\
  (forall v0, v0 ∈ vs ->
     exists k v, Image.split1 sep v0 = Some (k, v) /\ is_Some (m !! k)).
Proof.
  induction vs as [|v0 vs IH]; intros acc m; simpl.
  - intros [= <-]. repeat split.
    + intros k v H. now left.
    + auto.
    + intros v0 H. inversion H.
  - destruct (String.eqb sep ""); [discriminate|].
    destruct (Image.split1 sep v0) as [[k0 v1]|] eqn:Hs; [|discriminate].
    intros H. destruct (IH _ _ H) as (H1 & H2 & H3). repeat split.
    + intros k v Hk. destruct (H1 k v Hk) as [Ha|(x & Hin & Hx)].
      * destruct (decide (k0 = k)) as [->|Hne].
        -- rewrite lookup_insert_eq in Ha. injection Ha as ->.
           right. exists v0. split; [apply list_elem_of_here | exact Hs].
        -- rewrite lookup_insert_ne in Ha by assumption. now left.
      * right. exists x. split; [now apply list_elem_of_further | exact Hx].
    + intros k Hk. apply H2. destruct (decide (k0 = k)) as [->|Hne].
      * rewrite lookup_insert_eq. eauto.
      * now rewrite lookup_insert_ne.
    + intros x Hin. apply elem_of_cons in Hin as [->|Hin].
      * exists k0, v1. split; [exact Hs|]. apply H2.
        rewrite lookup_insert_eq. eauto.
      * apply H3, Hin.
Qed.

End SplitFacts.

(** X18. What [Image._split_token] returns.  When it returns a mapping,
    every entry [k: v] comes from an item that reads [k sep v], with [k] the
    text before the leftmost separator of that item, and every item has its
    key in the mapping.  Without values, [None] or an empty list, the
    mapping is empty. *)
Theorem split_token_entries
    (values : option (list string)) (sep : string) (m : gmap string string) :
  Image._split_token values sep = inr m ->
  (forall k v, m !! k = Some v ->
     exists v0, v0 ∈ default [] values /\
       v0 = (k ++ sep ++ v)%string /\
       forall k' v', v0 = (k' ++ sep ++ v')%string ->
         String.length k <= String.length k') /\
  (forall v0, v0 ∈ default [] values ->
     exists k v, v0 = (k ++ sep ++ v)%string /\ is_Some (m !! k)) /\
  (default [] values = [] -> m = ∅).
Proof.
  intros H.
  assert (Hc : Image.collect sep (default [] values) ∅ = inr m).
  { destruct values as [[|v0 vs]|]; exact H. }
  destruct (collect_entries sep _ _ _ Hc) as (H1 & _ & H3). repeat split.
  - intros k v Hk. destruct (H1 k v Hk) as [Ha|(v0 & Hin & Hs)].
    + rewrite lookup_empty in Ha. discriminate.
    + exists v0. split; [exact Hin|]. split.
      * now apply split1_sound.
      * now apply (split1_leftmost sep v0 k v).
  - intros v0 Hin. destruct (H3 v0 Hin) as (k & v & Hs & Hk).
    exists k, v. split; [now apply split1_sound | exact Hk].
  - intros He. rewrite He in Hc. simpl in Hc. now injection Hc as <-.
Qed.

Lemma split_token_entries_witness :
  exists k v,
    "TERM=xterm=1" = (k ++ "=" ++ v)%string /\
    is_Some (({[ "PATH" := "/bin"; "TERM" := "xterm=1" ]}
                : gmap string string) !! k).
Proof.
  refine (proj1 (proj2 (split_token_entries
                   (Some ["PATH=/bin"; "TERM=xterm=1"]) "="
                   {[ "PATH" := "/bin"; "TERM" := "xterm=1" ]} _))
            "TERM=xterm=1" _).
  - vm_compute. reflexivity.
  - apply list_elem_of_further, list_elem_of_here.
Defined.

(** X19. When [Image._split_token] fails.  For a non-empty list of values
    it raises ValueError exactly when the separator is empty or some item
    does not contain it; otherwise it returns a mapping. *)
Theorem split_token_fails_iff
    (v0 : string) (vs : list string) (sep : string) :
  (exists msg, Image._split_token (Some (v0 :: vs)) sep
               = inl (ValueError msg)) <->
  (sep = "" \/
   exists x, x ∈ v0 :: vs /\ forall a b, x <> (a ++ sep ++ b)%string).
Proof.
  unfold Image._split_token.
  assert (Hgen : forall l acc,
    (exists msg, Image.collect sep l acc = inl (ValueError msg)) <->
    (l <> [] /\
     (sep = "" \/ exists x, x ∈ l /\ forall a b, x <> (a ++ sep ++ b)%string))).
  { induction l as [|y l IH]; intros acc; simpl.
    - split; [intros (msg & H); discriminate | intros [H _]; congruence].
    - destruct (String.eqb_spec sep "") as [->|Hne].
      + split; [intros _; split; [discriminate | now left] | eauto].
      + destruct (Image.split1 sep y) as [[k v]|] eqn:Hs.
        * rewrite IH. split.
          -- intros (_ & [He|(x & Hin & Hx)]); [contradiction|].
             split; [discriminate|]. right. exists x.
             split; [now apply list_elem_of_further | exact Hx].
          -- intros (_ & [He|(x & Hin & Hx)]); [contradiction|].
             apply elem_of_cons in Hin as [->|Hin].
             ++ exfalso. apply (Hx k v). now apply split1_sound.
             ++ split; [intros ->; inversion Hin|]. right. eauto.
        * split; [|eauto]. intros _. split; [discriminate|]. right.
          exists y. split; [apply list_elem_of_here|].
          now apply split1_complete. }
  rewrite (Hgen (v0 :: vs) ∅). split; [intros [_ H]; exact H|].
  intros H. split; [discriminate | exact H].
Qed.

Lemma split_token_fails_iff_witness :
  exists msg,
    Image._split_token (Some ["PATH=/bin"; "novalue"]) "="
      = inl (ValueError msg).
Proof.
  apply (proj2 (split_token_fails_iff "PATH=/bin" ["novalue"] "=")).
  right. exists "novalue". split.
  - apply list_elem_of_further, list_elem_of_here.
  - apply split1_complete. reflexivity.
Defined.

(** ** Two sessions in a row *)

Section SequenceFacts.
Variable E : env.


End SequenceFacts.



(** ** Polling until the status changes *)

Section PollFacts.
Variable E : env.
Variable c : client.
Variable id : string.



















End PollFacts.







